(** * color-utils.js: hex colour swatches with contrasting text

    A shallow embedding of [src/web/static/js/color-utils.js].

    JavaScript strings are modelled as [string] (a sequence of code units,
    here the 8-bit ones), regular-expression literals as terms of a small
    regular-expression language with the backtracking semantics of
    ECMAScript, numbers as exact rationals together with [NaN], object
    literals used as lookup tables as functions from property keys to
    JavaScript values, and DOM elements as records of the properties the
    code assigns.  [getLuminance] computes on binary64 floating-point
    numbers, with [Math.pow] left as a parameter; and a second rendering of
    the six functions, in module [JS], returns completions, so that what
    throws is visible. *)

From Stdlib Require Import Floats String Ascii List Bool Arith ZArith QArith Lia.
Import ListNotations.

Set Warnings "-inexact-float".

Close Scope Q_scope.
Open Scope string_scope.

(** ** JavaScript values that reach a template literal *)

Inductive jsvalue : Type :=
| Undefined
| Str (s : string)
| ObjectPrototype
| BuiltinFunction (name : string).

(** [ToString], as applied by a template literal [`${v}`] and by the
    argument conversion of [parseInt].  The text of a built-in function is
    the one V8 prints. *)
Definition toStr (v : jsvalue) : string :=
  match v with
  | Undefined => "undefined"
  | Str s => s
  | ObjectPrototype => "[object Object]"
  | BuiltinFunction name => "function " ++ name ++ "() { [native code] }"
  end.

(** The properties every object literal inherits from [Object.prototype]
    (ECMAScript 20.1.3 and B.2.2), as seen by a property read [o[key]]. *)
Definition objectPrototypeGet (key : string) : jsvalue :=
  if key =? "constructor" then BuiltinFunction "Object"
  else if key =? "__proto__" then ObjectPrototype
  else if existsb (String.eqb key)
            ["hasOwnProperty"; "isPrototypeOf"; "propertyIsEnumerable";
             "toLocaleString"; "toString"; "valueOf";
             "__defineGetter__"; "__defineSetter__";
             "__lookupGetter__"; "__lookupSetter__"]
       then BuiltinFunction key
  else Undefined.

(** ** Strings *)

Module JSString.

(** [s.startsWith(p)] *)
Definition startsWith (s p : string) : bool := String.prefix p s.

(** Every code unit of [s] satisfies [p]. *)
Fixpoint all (p : ascii -> bool) (s : string) : bool :=
  match s with
  | EmptyString => true
  | String c s' => p c && all p s'
  end.

(** The code units of [s] before the suffix [rest]. *)
Definition consumed (s rest : string) : string :=
  substring 0 (String.length s - String.length rest) s.

End JSString.

(** ** Regular expressions

    The fragment of ECMAScript patterns the source uses: assertions [^] and
    [$] (no [m] flag), literal characters, character classes given by
    ranges, sequence, alternation, the greedy quantifier [?], the counted
    quantifier [{n}] and capturing groups.  The matcher is the backtracking
    matcher of ECMAScript 22.2.2 in continuation-passing style. *)

Module RegExp.

Inductive regex : Type :=
| Empty
| Bol
| Eol
| Chr (c : ascii)
| Class (ranges : list (ascii * ascii))
| Seq (r1 r2 : regex)
| Alt (r1 r2 : regex)
| Opt (r : regex)
| Group (i : nat) (r : regex).

(** [r{n}] *)
Fixpoint Rep (n : nat) (r : regex) : regex :=
  match n with
  | O => Empty
  | S n' => Seq r (Rep n' r)
  end.

(** [\d] *)
Definition digit : ascii * ascii := ("0"%char, "9"%char).

Record t : Type := { source : regex; ignoreCase : bool }.

Definition captures : Type := list (nat * string).

Fixpoint capture (i : nat) (caps : captures) : jsvalue :=
  match caps with
  | [] => Undefined
  | (j, s) :: caps' => if Nat.eqb i j then Str s else capture i caps'
  end.

(** [Canonicalize] (22.2.5.6) without the [u] flag: upper-casing, which
    on code units below 128 moves [a-z] to [A-Z]; a code unit from 128 on
    never canonicalizes to one below 128, and is left as it is here, the
    patterns of the source having none. *)
Definition canonicalize (ic : bool) (c : ascii) : ascii :=
  if ic && (97 <=? nat_of_ascii c)%nat && (nat_of_ascii c <=? 122)%nat
  then ascii_of_nat (nat_of_ascii c - 32)
  else c.

Definition members (ranges : list (ascii * ascii)) : list ascii :=
  flat_map (fun lh => map ascii_of_nat
               (seq (nat_of_ascii (fst lh))
                    (S (nat_of_ascii (snd lh)) - nat_of_ascii (fst lh))))
           ranges.

(** [CharacterSetMatcher]: some member of the set canonicalizes to the
    canonicalized input character. *)
Definition charMatches (ic : bool) (set : list ascii) (c : ascii) : bool :=
  existsb (fun a => Ascii.eqb (canonicalize ic a) (canonicalize ic c)) set.

Definition cont : Type := string -> captures -> option captures.

Section Matcher.
Variable ic : bool.
Variable input : string.

Fixpoint m (r : regex) (s : string) (caps : captures) (k : cont)
  : option captures :=
  match r with
  | Empty => k s caps
  | Bol => if Nat.eqb (String.length s) (String.length input)
           then k s caps else None
  | Eol => match s with
           | EmptyString => k s caps
           | String _ _ => None
           end
  | Chr c => match s with
             | String a s' => if charMatches ic [c] a
                              then k s' caps else None
             | EmptyString => None
             end
  | Class ranges => match s with
                    | String a s' => if charMatches ic (members ranges) a
                                     then k s' caps else None
                    | EmptyString => None
                    end
  | Seq r1 r2 => m r1 s caps (fun s' caps' => m r2 s' caps' k)
  | Alt r1 r2 => match m r1 s caps k with
                 | Some c => Some c
                 | None => m r2 s caps k
                 end
  | Opt r1 => match m r1 s caps k with
              | Some c => Some c
              | None => k s caps
              end
  | Group i r1 =>
      m r1 s caps
        (fun s' caps' => k s' ((i, JSString.consumed s s') :: caps'))
  end.

(** [RegExpBuiltinExec] without the [g] and [y] flags: the first start
    index, scanning from 0, at which the pattern matches. *)
Fixpoint scan (r : regex) (s : string) : option captures :=
  match m r s [] (fun s' caps => Some ((0, JSString.consumed s s') :: caps)) with
  | Some c => Some c
  | None => match s with
            | EmptyString => None
            | String _ s' => scan r s'
            end
  end.
End Matcher.

(** [re.exec(input)]: [None] stands for [null]. *)
Definition exec (re : t) (input : string) : option captures :=
  scan (ignoreCase re) input (source re) input.

(** [re.test(input)] *)
Definition test (re : t) (input : string) : bool :=
  match exec re input with
  | Some _ => true
  | None => false
  end.

End RegExp.

Import RegExp.

(** [seqs [r1; ...; rn]] is the pattern [r1 ... rn]. *)
Definition seqs (rs : list regex) : regex := fold_right Seq Empty rs.

(** ** Numbers

    A JavaScript number is modelled by the rational it denotes, or [NaN].
    Every number the source computes from channel values is an integer
    below 2^53 or such an integer divided by 1000; integers of that size are
    doubles, and since rounding to the nearest double is monotone and 128
    is a double, the comparison of the rounded quotient with 128 is the
    comparison of the exact quotient.  Infinities and the sign of zero do
    not occur. *)

Inductive number : Type :=
| NaN
| Fin (q : Q).

Definition num (z : Z) : number := Fin (inject_Z z).

Definition nmul (x y : number) : number :=
  match x, y with
  | Fin p, Fin q => Fin (p * q)%Q
  | _, _ => NaN
  end.

Definition nadd (x y : number) : number :=
  match x, y with
  | Fin p, Fin q => Fin (p + q)%Q
  | _, _ => NaN
  end.

(** [x / y] for a divisor other than zero. *)
Definition ndiv (x y : number) : number :=
  match x, y with
  | Fin p, Fin q => if Qeq_bool q 0 then NaN else Fin (p / q)%Q
  | _, _ => NaN
  end.

(** [x > y]; a comparison with [NaN] is false. *)
Definition ngt (x y : number) : bool :=
  match x, y with
  | Fin p, Fin q => negb (Qle_bool p q)
  | _, _ => false
  end.

(** ** parseInt (ECMAScript 19.2.5) *)

Definition isWhiteSpace (c : ascii) : bool :=
  existsb (Nat.eqb (nat_of_ascii c)) [9; 10; 11; 12; 13; 32; 160]%nat.

Fixpoint trimStart (s : string) : string :=
  match s with
  | String c s' => if isWhiteSpace c then trimStart s' else s
  | EmptyString => s
  end.

(** The value of a digit in a radix up to 36. *)
Definition digitValue (c : ascii) : option Z :=
  let n := Z.of_nat (nat_of_ascii c) in
  if (48 <=? n)%Z && (n <=? 57)%Z then Some (n - 48)%Z
  else if (97 <=? n)%Z && (n <=? 122)%Z then Some (n - 87)%Z
  else if (65 <=? n)%Z && (n <=? 90)%Z then Some (n - 55)%Z
  else None.

(** The integer written by the longest prefix of radix-[R] digits of [s],
    continuing from the digits already read; [None] when there is no
    digit. *)
Fixpoint digits (R : Z) (s : string) (acc : option Z) : option Z :=
  match s with
  | EmptyString => acc
  | String c s' =>
      match digitValue c with
      | Some d =>
          if (d <? R)%Z
          then digits R s' (Some (match acc with
                                  | Some a => a * R + d
                                  | None => d
                                  end)%Z)
          else acc
      | None => acc
      end
  end.

Definition parseInt (v : jsvalue) (radix : Z) : number :=
  let S := trimStart (toStr v) in
  let sign := match S with
              | String "-" _ => (-1)%Z
              | _ => 1%Z
              end in
  let S := match S with
           | String "+" S' => S'
           | String "-" S' => S'
           | _ => S
           end in
  if negb (radix =? 0)%Z && ((radix <? 2)%Z || (36 <? radix)%Z) then NaN
  else
    let stripPrefix := (radix =? 0)%Z || (radix =? 16)%Z in
    let R := if (radix =? 0)%Z then 10%Z else radix in
    let SR := match S with
              | String "0" (String x S') =>
                  if stripPrefix && (Ascii.eqb x "x" || Ascii.eqb x "X")
                  then (S', 16%Z) else (S, R)
              | _ => (S, R)
              end in
    match digits (snd SR) (fst SR) None with
    | None => NaN
    | Some n => num (sign * n)
    end.

(** ** color-utils.js *)

Record RGB : Type := { r : number; g : number; b : number }.

(** [/^#?([a-f\d]{2})([a-f\d]{2})([a-f\d]{2})$/i] *)
Definition hexToRgb_re : RegExp.t :=
  {| source :=
       seqs [Bol; Opt (Chr "#");
             Group 1 (Rep 2 (Class [("a", "f"); digit]%char));
             Group 2 (Rep 2 (Class [("a", "f"); digit]%char));
             Group 3 (Rep 2 (Class [("a", "f"); digit]%char));
             Eol];
     ignoreCase := true |}.

Definition hexToRgb (hex : string) : RGB :=
  let result := exec hexToRgb_re hex in
  match result with
  | Some result =>
      {| r := parseInt (capture 1 result) 16;
         g := parseInt (capture 2 result) 16;
         b := parseInt (capture 3 result) 16 |}
  | None => {| r := num 0; g := num 0; b := num 0 |}
  end.

(** The local [brightness] of [getContrastColor]. *)
Definition brightness (rgb : RGB) : number :=
  ndiv (nadd (nadd (nmul (r rgb) (num 299)) (nmul (g rgb) (num 587)))
             (nmul (b rgb) (num 114)))
       (num 1000).

Definition getContrastColor (hex : string) : string :=
  let rgb := hexToRgb hex in
  if ngt (brightness rgb) (num 128) then "#000000" else "#ffffff".

(** [/^#([A-Fa-f0-9]{6}|[A-Fa-f0-9]{3})$/] *)
Definition isValidHex_re : RegExp.t :=
  {| source :=
       seqs [Bol; Chr "#";
             Group 1 (Alt (Rep 6 (Class [("A", "F"); ("a", "f"); ("0", "9")]%char))
                          (Rep 3 (Class [("A", "F"); ("a", "f"); ("0", "9")]%char)));
             Eol];
     ignoreCase := false |}.

Definition isValidHex (hex : string) : bool := test isValidHex_re hex.

(** *** Options

    The [options] argument: an object whose recognised keys may be absent
    ([None]), in which case the destructuring pattern supplies the default.
    [noOptions] is the default argument [{}]. *)

Record RenderOptions : Type :=
  { mode : option string;
    size : option string;
    showBorder : option bool;
    className : option string }.

Definition noOptions : RenderOptions :=
  {| mode := None; size := None; showBorder := None; className := None |}.

(** [key = dflt] in a destructuring pattern. *)
Definition orDefault {A : Type} (v : option A) (dflt : A) : A :=
  match v with
  | Some a => a
  | None => dflt
  end.

(** The object literal [sizeClasses], read as [sizeClasses[key]]: its own
    three properties, then the ones it inherits. *)
Definition sizeClasses (key : string) : jsvalue :=
  if key =? "sm" then Str "text-xs px-1.5 py-0.5"
  else if key =? "md" then Str "text-xs px-2 py-1"
  else if key =? "lg" then Str "text-sm px-2.5 py-1.5"
  else objectPrototypeGet key.

(** *** The DOM

    An element is the record of what the code assigns to it; a style
    property holds the text assigned, [None] while unassigned. *)

Module DOM.

Record CSSStyleDeclaration : Type :=
  { backgroundColor : option string;
    color : option string;
    border : option string }.

Record HTMLElement : Type :=
  { tagName : string;
    className : string;
    style : CSSStyleDeclaration;
    textContent : string }.

(** [document.createElement(tag)] *)
Definition createElement (tag : string) : HTMLElement :=
  {| tagName := tag;
     className := "";
     style := {| backgroundColor := None; color := None; border := None |};
     textContent := "" |}.

Definition set_className (e : HTMLElement) (v : string) : HTMLElement :=
  {| tagName := tagName e; className := v; style := style e;
     textContent := textContent e |}.

Definition set_textContent (e : HTMLElement) (v : string) : HTMLElement :=
  {| tagName := tagName e; className := className e; style := style e;
     textContent := v |}.

Definition set_style (e : HTMLElement) (st : CSSStyleDeclaration)
  : HTMLElement :=
  {| tagName := tagName e; className := className e; style := st;
     textContent := textContent e |}.

Definition set_backgroundColor (e : HTMLElement) (v : string) : HTMLElement :=
  set_style e {| backgroundColor := Some v; color := color (style e);
                 border := border (style e) |}.

Definition set_color (e : HTMLElement) (v : string) : HTMLElement :=
  set_style e {| backgroundColor := backgroundColor (style e);
                 color := Some v; border := border (style e) |}.

Definition set_border (e : HTMLElement) (v : string) : HTMLElement :=
  set_style e {| backgroundColor := backgroundColor (style e);
                 color := color (style e); border := Some v |}.

End DOM.

(** The double-quote character, which delimits attribute values in the
    markup. *)
Definition dquote : string := String "034"%char EmptyString.

Definition createColoredHex (hexValue : string) (options : RenderOptions)
  : DOM.HTMLElement :=
  if negb (isValidHex hexValue) then
    let span := DOM.createElement "span" in
    DOM.set_textContent span hexValue
  else
    let hex := if JSString.startsWith hexValue "#" then hexValue
               else "#" ++ hexValue in
    let mode := orDefault (mode options) "inline" in
    let size := orDefault (size options) "md" in
    let showBorder := orDefault (showBorder options) true in
    let className := orDefault (className options) "" in
    let textColor := getContrastColor hex in
    let element := DOM.createElement (if mode =? "block" then "div" else "span") in
    let element :=
      DOM.set_className element
        ("colored-hex font-mono rounded " ++ toStr (sizeClasses size)
           ++ " " ++ className) in
    let element := DOM.set_backgroundColor element hex in
    let element := DOM.set_color element textColor in
    let element := DOM.set_textContent element hex in
    if showBorder then
      DOM.set_border element
        ("1px solid " ++ (if textColor =? "#000000" then "rgba(0,0,0,0.2)"
                          else "rgba(255,255,255,0.3)"))
    else element.

Definition createColoredHexHTML (hexValue : string) (options : RenderOptions)
  : string :=
  if negb (isValidHex hexValue) then hexValue
  else
    let hex := if JSString.startsWith hexValue "#" then hexValue
               else "#" ++ hexValue in
    let mode := orDefault (mode options) "inline" in
    let size := orDefault (size options) "md" in
    let showBorder := orDefault (showBorder options) true in
    let className := orDefault (className options) "" in
    let textColor := getContrastColor hex in
    let tag := if mode =? "block" then "div" else "span" in
    let borderStyle :=
      if showBorder
      then "border: 1px solid "
             ++ (if textColor =? "#000000" then "rgba(0,0,0,0.2)"
                 else "rgba(255,255,255,0.3)") ++ ";"
      else "" in
    "<" ++ tag ++ " class=" ++ dquote ++ "colored-hex font-mono rounded "
      ++ toStr (sizeClasses size) ++ " " ++ className ++ dquote
      ++ " style=" ++ dquote ++ "background-color: " ++ hex ++ "; color: "
      ++ textColor ++ "; " ++ borderStyle ++ dquote ++ ">" ++ hex
      ++ "</" ++ tag ++ ">".

(** *** Luminance, on binary64 numbers

    The channels are integers, which the doubles hold exactly; from the
    division by 255 on, [getLuminance] is floating-point arithmetic. *)

(** The double that the integer [z] denotes (exactly, below 2^53). *)
Definition floatOfZ (z : Z) : float :=
  SF2Prim (binary_normalize prec emax z 0 false).

(** The double that a number of the model denotes: the correctly rounded
    quotient of numerator and denominator. *)
Definition toFloat (x : number) : float :=
  match x with
  | NaN => nan
  | Fin q => (floatOfZ (Qnum q) / floatOfZ (Zpos (Qden q)))%float
  end.

Section Luminance.
Local Open Scope float_scope.

(** [Math.pow] *)
Variable pow : float -> float -> float.

(** The callback of [map] in [getLuminance]. *)
Definition linearize (val : float) : float :=
  let val := val / 255 in
  if val <=? 0.03928 then val / 12.92 else pow ((val + 0.055) / 1.055) 2.4.

(** The array pattern [[r, g, b]] takes the three elements of the mapped
    array; an element that were missing would be [undefined], and the sum
    [NaN]. *)
Definition getLuminance (hex : string) : float :=
  let rgb := hexToRgb hex in
  match map linearize [toFloat (r rgb); toFloat (g rgb); toFloat (b rgb)] with
  | [r; g; b] => 0.2126 * r + 0.7152 * g + 0.0722 * b
  | _ => nan
  end.

End Luminance.

(** *** The functions as called: abrupt completions

    A call returns a value or throws.  What can throw, on a string and an
    options argument of any kind, is reading a property of [null] or
    [undefined]: an element of the result of [exec], and the destructuring
    of [options]. *)

Inductive error : Type := TypeError.

Inductive completion (A : Type) : Type :=
| Normal (a : A)
| Throw (e : error).

Arguments Normal {A} a.
Arguments Throw {A} e.

(** What a caller passes for [options]: nothing, [null], a boolean, number
    or string, or an object with the recognised keys. *)
Inductive argument : Type :=
| ArgUndefined
| ArgNull
| ArgPrimitive
| ArgObject (o : RenderOptions).

Module JS.

Definition bind {A B : Type} (c : completion A) (k : A -> completion B)
  : completion B :=
  match c with
  | Normal a => k a
  | Throw e => Throw e
  end.

Notation "x <- c ;; k" := (bind c (fun x => k))
  (at level 61, c at next level, right associativity).

(** [result[i]] *)
Definition getElement (result : option captures) (i : nat)
  : completion jsvalue :=
  match result with
  | Some caps => Normal (capture i caps)
  | None => Throw TypeError
  end.

(** [result ? ... : ...]: an object is truthy, [null] is not. *)
Definition truthy (result : option captures) : bool :=
  match result with
  | Some _ => true
  | None => false
  end.

(** The default [options = {}] of a parameter: it replaces [undefined]
    only. *)
Definition defaultOptions (options : argument) : argument :=
  match options with
  | ArgUndefined => ArgObject noOptions
  | _ => options
  end.

(** [const { mode = ..., ... } = options]: [null] and [undefined] cannot be
    destructured; a primitive has none of the keys. *)
Definition destructure (options : argument) : completion RenderOptions :=
  match options with
  | ArgUndefined => Throw TypeError
  | ArgNull => Throw TypeError
  | ArgPrimitive => Normal noOptions
  | ArgObject o => Normal o
  end.

Definition hexToRgb (hex : string) : completion RGB :=
  let result := exec hexToRgb_re hex in
  if truthy result then
    g1 <- getElement result 1 ;;
    g2 <- getElement result 2 ;;
    g3 <- getElement result 3 ;;
    Normal {| r := parseInt g1 16; g := parseInt g2 16; b := parseInt g3 16 |}
  else Normal {| r := num 0; g := num 0; b := num 0 |}.

Definition getLuminance (pow : float -> float -> float) (hex : string)
  : completion float :=
  rgb <- hexToRgb hex ;;
  Normal
    match map (linearize pow) [toFloat (r rgb); toFloat (g rgb); toFloat (b rgb)] with
    | [r; g; b] => (0.2126 * r + 0.7152 * g + 0.0722 * b)%float
    | _ => nan
    end.

Definition getContrastColor (hex : string) : completion string :=
  rgb <- hexToRgb hex ;;
  Normal (if ngt (brightness rgb) (num 128) then "#000000" else "#ffffff").

Definition isValidHex (hex : string) : completion bool :=
  Normal (test isValidHex_re hex).

Definition createColoredHex (hexValue : string) (options : argument)
  : completion DOM.HTMLElement :=
  let options := defaultOptions options in
  valid <- isValidHex hexValue ;;
  if negb valid then
    let span := DOM.createElement "span" in
    Normal (DOM.set_textContent span hexValue)
  else
    let hex := if JSString.startsWith hexValue "#" then hexValue
               else "#" ++ hexValue in
    o <- destructure options ;;
    let mode := orDefault (mode o) "inline" in
    let size := orDefault (size o) "md" in
    let showBorder := orDefault (showBorder o) true in
    let className := orDefault (className o) "" in
    textColor <- getContrastColor hex ;;
    let element := DOM.createElement (if mode =? "block" then "div" else "span") in
    let element :=
      DOM.set_className element
        ("colored-hex font-mono rounded " ++ toStr (sizeClasses size)
           ++ " " ++ className) in
    let element := DOM.set_backgroundColor element hex in
    let element := DOM.set_color element textColor in
    let element := DOM.set_textContent element hex in
    if showBorder then
      Normal
        (DOM.set_border element
           ("1px solid " ++ (if textColor =? "#000000" then "rgba(0,0,0,0.2)"
                             else "rgba(255,255,255,0.3)")))
    else Normal element.

Definition createColoredHexHTML (hexValue : string) (options : argument)
  : completion string :=
  let options := defaultOptions options in
  valid <- isValidHex hexValue ;;
  if negb valid then Normal hexValue
  else
    let hex := if JSString.startsWith hexValue "#" then hexValue
               else "#" ++ hexValue in
    o <- destructure options ;;
    let mode := orDefault (mode o) "inline" in
    let size := orDefault (size o) "md" in
    let showBorder := orDefault (showBorder o) true in
    let className := orDefault (className o) "" in
    textColor <- getContrastColor hex ;;
    let tag := if mode =? "block" then "div" else "span" in
    let borderStyle :=
      if showBorder
      then "border: 1px solid "
             ++ (if textColor =? "#000000" then "rgba(0,0,0,0.2)"
                 else "rgba(255,255,255,0.3)") ++ ";"
      else "" in
    Normal
      ("<" ++ tag ++ " class=" ++ dquote ++ "colored-hex font-mono rounded "
         ++ toStr (sizeClasses size) ++ " " ++ className ++ dquote
         ++ " style=" ++ dquote ++ "background-color: " ++ hex ++ "; color: "
         ++ textColor ++ "; " ++ borderStyle ++ dquote ++ ">" ++ hex
         ++ "</" ++ tag ++ ">").

End JS.

(** * Specification vocabulary *)

(** A hexadecimal digit: [0-9], [A-F] or [a-f]. *)
Definition isHexDigit (c : ascii) : bool :=
  let n := nat_of_ascii c in
  ((48 <=? n) && (n <=? 57) || (65 <=? n) && (n <=? 70)
   || (97 <=? n) && (n <=? 102))%nat.

(** The value of the hexadecimal digit [c]. *)
Definition hexDigitValue (c : ascii) : Z :=
  let n := Z.of_nat (nat_of_ascii c) in
  if (n <=? 57)%Z then (n - 48)%Z
  else if (n <=? 70)%Z then (n - 65 + 10)%Z
  else (n - 97 + 10)%Z.

(** The value of the two-digit hexadecimal numeral [c1 c2]. *)
Definition channel (c1 c2 : ascii) : Z :=
  (16 * hexDigitValue c1 + hexDigitValue c2)%Z.

(** [n] hexadecimal digits and nothing else. *)
Definition hexDigits (n : nat) (s : string) : bool :=
  Nat.eqb (String.length s) n && JSString.all isHexDigit s.

(** [s] without one leading [#], if it has one. *)
Definition stripHash (s : string) : string :=
  match s with
  | String "#" s' => s'
  | _ => s
  end.

(** Six hexadecimal digits, with or without a leading [#]. *)
Definition sixHexDigits (s : string) : bool := hexDigits 6 (stripHash s).

(** The three pairs of digits of a string of six hexadecimal digits. *)
Definition hexPairs (s : string) : option (string * string * string) :=
  match s with
  | String c1 (String c2 (String c3 (String c4 (String c5 (String c6
      EmptyString))))) =>
      if JSString.all isHexDigit s
      then Some (String c1 (String c2 EmptyString),
                 String c3 (String c4 EmptyString),
                 String c5 (String c6 EmptyString))
      else None
  | _ => None
  end.

(** The colour with integer channels [R], [G] and [B]. *)
Definition rgbOf (R G B : Z) : RGB := {| r := num R; g := num G; b := num B |}.

(** The element kind the options ask for: [div] for mode [block], [span]
    otherwise. *)
Definition elementKind (o : RenderOptions) : string :=
  match mode o with
  | Some md => if md =? "block" then "div" else "span"
  | None => "span"
  end.

(** The size keys of the table [sizeClasses], and the keys inherited from
    [Object.prototype]. *)
Definition sizeKeys : list string := ["sm"; "md"; "lg"].

Definition inheritedKeys : list string :=
  ["constructor"; "__proto__"; "hasOwnProperty"; "isPrototypeOf";
   "propertyIsEnumerable"; "toLocaleString"; "toString"; "valueOf";
   "__defineGetter__"; "__defineSetter__"; "__lookupGetter__";
   "__lookupSetter__"].

Definition oneOf (key : string) (keys : list string) : bool :=
  existsb (String.eqb key) keys.

(** The declarations of an inline style, in the order and layout of the
    markup template: an unassigned property has no declaration. *)
Definition styleText (st : DOM.CSSStyleDeclaration) : string :=
  match DOM.backgroundColor st with
  | Some v => "background-color: " ++ v ++ "; "
  | None => ""
  end
  ++ match DOM.color st with
     | Some v => "color: " ++ v ++ "; "
     | None => ""
     end
  ++ match DOM.border st with
     | Some v => "border: " ++ v ++ ";"
     | None => ""
     end.

(** The markup that carries the tag, the class string, the inline style
    and the text of an element. *)
Definition markup (e : DOM.HTMLElement) : string :=
  "<" ++ DOM.tagName e ++ " class=" ++ dquote ++ DOM.className e ++ dquote
    ++ " style=" ++ dquote ++ styleText (DOM.style e) ++ dquote ++ ">"
    ++ DOM.textContent e ++ "</" ++ DOM.tagName e ++ ">".

(** The element [createColoredHex] returns for an input it rejects. *)
Definition plainText (s : string) : DOM.HTMLElement :=
  {| DOM.tagName := "span";
     DOM.className := "";
     DOM.style := {| DOM.backgroundColor := None; DOM.color := None;
                     DOM.border := None |};
     DOM.textContent := s |}.

(** The two renderers agree at [h] and [o]: the element has the kind the
    options ask for, and the markup is the markup of the element. *)
Definition renderersAgree (h : string) (o : RenderOptions) : Prop :=
  DOM.tagName (createColoredHex h o) = elementKind o
  /\ createColoredHexHTML h o = markup (createColoredHex h o).

(** The class string [cls] has nothing in its size slot: the slot is empty
    or left out, between the base classes and the caller's classes. *)
Definition sizeSlotEmpty (o : RenderOptions) (cls : string) : Prop :=
  cls = "colored-hex font-mono rounded " ++ "" ++ " "
          ++ orDefault (className o) ""
  \/ cls = "colored-hex font-mono rounded " ++ orDefault (className o) "".

(** [s] starts with [n] code units satisfying [p]; what follows them. *)
Fixpoint leading (p : ascii -> bool) (n : nat) (s : string) : option string :=
  match n with
  | O => Some s
  | S n' => match s with
            | String c s' => if p c then leading p n' s' else None
            | EmptyString => None
            end
  end.

(** [needle] is a prefix of [hay]. *)
Fixpoint startsAt (needle hay : string) : bool :=
  match needle, hay with
  | EmptyString, _ => true
  | String a needle', String c hay' => Ascii.eqb a c && startsAt needle' hay'
  | String _ _, EmptyString => false
  end.

(** [needle] occurs in [hay]. *)
Fixpoint occurs (needle hay : string) : bool :=
  startsAt needle hay
  || match hay with
     | String _ hay' => occurs needle hay'
     | EmptyString => false
     end.

(** A text of which some positions are only known to hold a hexadecimal
    digit, and the search for [needle] in it that counts every such
    position as a possible match of a hexadecimal digit of [needle]. *)
Inductive item : Type :=
| Known (c : ascii)
| AnyHex.

Fixpoint fits (tpl : list item) (s : string) : Prop :=
  match tpl, s with
  | [], EmptyString => True
  | Known c :: tpl', String a s' => a = c /\ fits tpl' s'
  | AnyHex :: tpl', String a s' => isHexDigit a = true /\ fits tpl' s'
  | _, _ => False
  end.

Definition known (s : string) : list item := map Known (list_ascii_of_string s).

Definition mayBe (a : ascii) (i : item) : bool :=
  match i with
  | Known c => Ascii.eqb a c
  | AnyHex => isHexDigit a
  end.

Fixpoint mayStartAt (needle : string) (tpl : list item) : bool :=
  match needle, tpl with
  | EmptyString, _ => true
  | String a needle', i :: tpl' => mayBe a i && mayStartAt needle' tpl'
  | String _ _, [] => false
  end.

Fixpoint mayOccur (needle : string) (tpl : list item) : bool :=
  mayStartAt needle tpl
  || match tpl with
     | _ :: tpl' => mayOccur needle tpl'
     | [] => false
     end.

(** The options [{mode: "block", showBorder: false}]. *)
Definition blockNoBorder : RenderOptions :=
  {| mode := Some "block"; size := None; showBorder := Some false;
     className := None |}.

(** [c] with an upper-case letter [A-Z] moved to lower case, and [s] with
    every code unit so moved. *)
Definition lowerChar (c : ascii) : ascii :=
  if (65 <=? nat_of_ascii c)%nat && (nat_of_ascii c <=? 90)%nat
  then ascii_of_nat (nat_of_ascii c + 32)
  else c.

Fixpoint lowerCase (s : string) : string :=
  match s with
  | EmptyString => EmptyString
  | String c s' => String (lowerChar c) (lowerCase s')
  end.

(** The options object in which every absent key is written out with the
    default its destructuring pattern documents. *)
Definition withDefaults (o : RenderOptions) : RenderOptions :=
  {| mode := Some (orDefault (mode o) "inline");
     size := Some (orDefault (size o) "md");
     showBorder := Some (orDefault (showBorder o) true);
     className := Some (orDefault (className o) "") |}.

(** [f] lies between 0 and 1. *)
Definition inUnit (f : float) : bool := ((0 <=? f) && (f <=? 1))%float.

(** The channel [z], divided by 255, lies between 0 and 1, and so does
    what the linearization divides by 12.92 or hands to [Math.pow]. *)
Definition channelCheck (z : Z) : bool :=
  let val := (toFloat (num z) / 255)%float in
  inUnit val
  && (if (val <=? 0.03928)%float then inUnit (val / 12.92)%float
      else inUnit ((val + 0.055) / 1.055)%float).

(** The options object an argument other than [null] stands for. *)
Definition optionsOf (options : argument) : RenderOptions :=
  match options with
  | ArgObject o => o
  | _ => noOptions
  end.

Section Dyadic.
Local Open Scope Z_scope.

(** The dyadic number [m * 2^e], scaled to an integer. *)
Definition dy (m e : Z) : Z := m * 2 ^ (e + 1200).

(** [mrs] is [m0] shifted right by [n] bits. *)
Definition shifted (m0 n : Z) (mrs : shr_record) : Prop :=
  0 <= shr_m mrs
  /\ exists rem, m0 = shr_m mrs * 2 ^ n + rem /\ 0 <= rem < 2 ^ n
                 /\ (rem = 0 -> shr_r mrs = false /\ shr_s mrs = false).

(** [x] is a zero or a positive number that is at most [mF * 2^eF]. *)
Definition upTo (mF : positive) (eF : Z) (x : spec_float) : Prop :=
  match x with
  | S754_zero _ => True
  | S754_finite false m e => dy (Zpos m) e <= dy (Zpos mF) eF
  | _ => False
  end.

End Dyadic.

(** * The regular expressions of the source *)

Section CharacterClasses.

Lemma class_hex_ignoreCase (c : ascii) :
  charMatches true (members [("a", "f"); digit]%char) c = isHexDigit c.
Proof. destruct c as [[] [] [] [] [] [] [] []]; vm_compute; reflexivity. Qed.

Lemma class_hex (c : ascii) :
  charMatches false (members [("A", "F"); ("a", "f"); ("0", "9")]%char) c
  = isHexDigit c.
Proof. destruct c as [[] [] [] [] [] [] [] []]; vm_compute; reflexivity. Qed.

Lemma chr_hash (ic : bool) (c : ascii) :
  charMatches ic ["#"%char] c = Ascii.eqb c "#".
Proof.
  destruct ic; destruct c as [[] [] [] [] [] [] [] []]; vm_compute; reflexivity.
Qed.

Lemma hash_not_hex : isHexDigit "#" = false.
Proof. reflexivity. Qed.

Lemma hexDigit_not_hash (c : ascii) :
  isHexDigit c = true -> Ascii.eqb c "#" = false.
Proof.
  destruct (Ascii.eqb_spec c "#") as [-> | _]; [discriminate | reflexivity].
Qed.

End CharacterClasses.

Section MatcherEquations.
Variable ic : bool.
Variable input : string.

Lemma m_Rep_Class (ranges : list (ascii * ascii)) (n : nat) :
  forall s caps k,
    RegExp.m ic input (Rep n (Class ranges)) s caps k
    = match leading (charMatches ic (members ranges)) n s with
      | Some rest => k rest caps
      | None => None
      end.
Proof.
  induction n as [| n IH]; intros s caps k; [reflexivity |].
  cbn [Rep RegExp.m leading].
  destruct s as [| c s]; [reflexivity |].
  destruct (charMatches ic (members ranges) c); [apply IH | reflexivity].
Qed.

Lemma m_Bol_start (r : regex) (caps : captures) (k : cont) :
  RegExp.m ic input (Seq Bol r) input caps k = RegExp.m ic input r input caps k.
Proof. cbn [RegExp.m]. now rewrite Nat.eqb_refl. Qed.

Lemma m_Bol_later (r : regex) (s : string) (caps : captures) (k : cont) :
  String.length s < String.length input ->
  RegExp.m ic input (Seq Bol r) s caps k = None.
Proof.
  intros H. cbn [RegExp.m].
  destruct (Nat.eqb_spec (String.length s) (String.length input)); [lia | reflexivity].
Qed.

Lemma scan_Bol_later (r : regex) :
  forall s, String.length s < String.length input ->
            scan ic input (Seq Bol r) s = None.
Proof.
  induction s as [| c s IH]; intros H; cbn [scan].
  - now rewrite m_Bol_later.
  - rewrite m_Bol_later by assumption. apply IH. simpl in H. lia.
Qed.

End MatcherEquations.

(** A pattern that starts with [^] matches at index 0 or not at all. *)
Lemma exec_anchored (r : regex) (ic : bool) (input : string) :
  exec {| source := Seq Bol r; ignoreCase := ic |} input
  = RegExp.m ic input r input []
      (fun s' caps => Some ((0, JSString.consumed input s') :: caps)).
Proof.
  unfold exec. cbn [source ignoreCase].
  destruct input as [| c s] eqn:E; cbn [scan]; rewrite m_Bol_start.
  - now destruct (RegExp.m _ _ _ _ _ _).
  - destruct (RegExp.m _ _ _ _ _ _); [reflexivity |].
    apply scan_Bol_later. simpl. lia.
Qed.

Lemma leading_exact (p : ascii -> bool) (n : nat) :
  forall s,
    match leading p n s with
    | Some EmptyString => true
    | _ => false
    end = Nat.eqb (String.length s) n && JSString.all p s.
Proof.
  induction n as [| n IH]; intros [| c s]; cbn [leading String.length JSString.all];
    try reflexivity.
  destruct (p c); cbn [andb].
  - rewrite IH. reflexivity.
  - now rewrite andb_false_r.
Qed.

Lemma leading_ext (p q : ascii -> bool) :
  (forall c, p c = q c) ->
  forall n s, leading p n s = leading q n s.
Proof.
  intros H n. induction n as [| n IH]; intros [| c s]; cbn [leading];
    try reflexivity.
  rewrite H, IH. reflexivity.
Qed.

(** What [isValidHex] accepts: a [#] followed by six or by three
    hexadecimal digits. *)
Lemma isValidHex_eq (s : string) :
  isValidHex s
  = match s with
    | String c body => Ascii.eqb c "#" && (hexDigits 6 body || hexDigits 3 body)
    | EmptyString => false
    end.
Proof.
  unfold isValidHex, test, isValidHex_re, seqs. cbn [fold_right].
  rewrite exec_anchored.
  destruct s as [| c body]; [reflexivity |].
  cbn [RegExp.m]. rewrite chr_hash.
  destruct (Ascii.eqb c "#"); [| reflexivity].
  cbn [andb]. unfold hexDigits.
  rewrite !m_Rep_Class, !(leading_ext _ _ class_hex), <- !leading_exact.
  destruct (leading isHexDigit 6 body) as [[| ? ?] |]; try reflexivity;
    destruct (leading isHexDigit 3 body) as [[| ? ?] |]; reflexivity.
Qed.

(** The three groups of the pattern of [hexToRgb], matched at [t] with
    nothing after them. *)
Lemma m_hexToRgb_groups (input t : string) (k0 : cont) :
  (forall caps, k0 EmptyString caps
                = Some ((0, JSString.consumed input EmptyString) :: caps)) ->
  RegExp.m true input
    (seqs [Group 1 (Rep 2 (Class [("a", "f"); digit]%char));
           Group 2 (Rep 2 (Class [("a", "f"); digit]%char));
           Group 3 (Rep 2 (Class [("a", "f"); digit]%char));
           Eol]) t [] k0
  = match hexPairs t with
    | Some (p1, p2, p3) =>
        Some [(0, JSString.consumed input EmptyString); (3, p3); (2, p2); (1, p1)]
    | None => None
    end.
Proof.
  intros Hk.
  destruct t as [| c1 [| c2 [| c3 [| c4 [| c5 [| c6 [| c7 t]]]]]]];
    cbn [seqs fold_right RegExp.m Rep hexPairs JSString.all];
    rewrite ?class_hex_ignoreCase;
    repeat match goal with
      | |- context [isHexDigit ?c] => destruct (isHexDigit c)
      end;
    cbn [andb]; rewrite ?Hk; reflexivity.
Qed.

Lemma hexPairs_hash (t : string) : hexPairs (String "#" t) = None.
Proof.
  destruct t as [| c2 [| c3 [| c4 [| c5 [| c6 [| c7 t]]]]]]; reflexivity.
Qed.

Lemma stripHash_other (a : ascii) (t : string) :
  Ascii.eqb a "#" = false -> stripHash (String a t) = String a t.
Proof.
  destruct a as [[] [] [] [] [] [] [] []]; cbn; intros H;
    try reflexivity; discriminate.
Qed.

(** What the pattern of [hexToRgb] matches, and its captures. *)
Lemma exec_hexToRgb (s : string) :
  exec hexToRgb_re s
  = match hexPairs (stripHash s) with
    | Some (p1, p2, p3) =>
        Some [(0, JSString.consumed s EmptyString); (3, p3); (2, p2); (1, p1)]
    | None => None
    end.
Proof.
  unfold hexToRgb_re, seqs. cbn [fold_right]. rewrite exec_anchored.
  cbn [RegExp.m].
  pose proof (fun t => m_hexToRgb_groups s t
                 (fun s' caps => Some ((0, JSString.consumed s s') :: caps))
                 (fun caps => eq_refl)) as HK.
  unfold seqs in HK. cbn [fold_right RegExp.m] in HK.
  destruct s as [| a t].
  - apply HK.
  - rewrite chr_hash. destruct (Ascii.eqb a "#") eqn:Ea.
    + apply Ascii.eqb_eq in Ea. subst a. cbn [stripHash].
      rewrite !HK, hexPairs_hash.
      now destruct (hexPairs t) as [[[p1 p2] p3] |].
    + rewrite stripHash_other by assumption. apply HK.
Qed.

(** * parseInt on a pair of hexadecimal digits *)

Lemma hexDigitValue_range (c : ascii) :
  isHexDigit c = true -> (0 <= hexDigitValue c <= 15)%Z.
Proof.
  destruct c as [[] [] [] [] [] [] [] []]; vm_compute;
    intros H; try discriminate H; split; discriminate.
Qed.

Lemma channel_range (c1 c2 : ascii) :
  isHexDigit c1 = true -> isHexDigit c2 = true ->
  (0 <= channel c1 c2 <= 255)%Z.
Proof.
  intros H1 H2. unfold channel.
  pose proof (hexDigitValue_range c1 H1). pose proof (hexDigitValue_range c2 H2).
  lia.
Qed.

Lemma parseInt_hex_pair (c1 c2 : ascii) :
  isHexDigit c1 = true -> isHexDigit c2 = true ->
  parseInt (Str (String c1 (String c2 EmptyString))) 16 = num (channel c1 c2).
Proof.
  intros H1 H2.
  destruct c1 as [[] [] [] [] [] [] [] []]; vm_compute in H1; try discriminate H1;
    clear H1;
    destruct c2 as [[] [] [] [] [] [] [] []]; vm_compute in H2;
    try discriminate H2; vm_compute; reflexivity.
Qed.

(** * hexToRgb *)

(** On six hexadecimal digits after an optional [#], the three channels;
    on anything else, black. *)
Lemma hexToRgb_eq (s : string) :
  hexToRgb s
  = match stripHash s with
    | String c1 (String c2 (String c3 (String c4 (String c5 (String c6
        EmptyString))))) =>
        if JSString.all isHexDigit (stripHash s)
        then rgbOf (channel c1 c2) (channel c3 c4) (channel c5 c6)
        else rgbOf 0 0 0
    | _ => rgbOf 0 0 0
    end.
Proof.
  unfold hexToRgb. rewrite exec_hexToRgb. unfold hexPairs.
  destruct (stripHash s)
    as [| c1 [| c2 [| c3 [| c4 [| c5 [| c6 [| c7 t]]]]]]]; try reflexivity.
  destruct (JSString.all isHexDigit _) eqn:Hall; [| reflexivity].
  cbn [JSString.all] in Hall.
  repeat (apply andb_prop in Hall; destruct Hall as [? Hall]).
  cbn [capture Nat.eqb].
  rewrite !parseInt_hex_pair by assumption. reflexivity.
Qed.

Lemma hexToRgb_unmatched (s : string) :
  exec hexToRgb_re s = None -> hexToRgb s = rgbOf 0 0 0.
Proof. unfold hexToRgb. now intros ->. Qed.

Lemma sixHexDigits_exec (s : string) :
  sixHexDigits s = false <-> exec hexToRgb_re s = None.
Proof.
  rewrite exec_hexToRgb. unfold sixHexDigits, hexDigits, hexPairs.
  destruct (stripHash s)
    as [| c1 [| c2 [| c3 [| c4 [| c5 [| c6 [| c7 t]]]]]]];
    cbn [String.length Nat.eqb andb]; try (split; reflexivity).
  destruct (JSString.all isHexDigit _); split; intros H;
    (reflexivity || discriminate H).
Qed.

(** The channels [hexToRgb] returns are integers between 0 and 255. *)
Lemma hexToRgb_channels (s : string) :
  exists R G B : Z,
    hexToRgb s = rgbOf R G B
    /\ (0 <= R <= 255)%Z /\ (0 <= G <= 255)%Z /\ (0 <= B <= 255)%Z.
Proof.
  rewrite hexToRgb_eq.
  destruct (stripHash s)
    as [| c1 [| c2 [| c3 [| c4 [| c5 [| c6 [| c7 t]]]]]]];
    try (exists 0%Z, 0%Z, 0%Z; repeat split; lia).
  destruct (JSString.all isHexDigit _) eqn:Hall;
    [| exists 0%Z, 0%Z, 0%Z; repeat split; lia].
  cbn [JSString.all] in Hall.
  repeat (apply andb_prop in Hall; destruct Hall as [? Hall]).
  exists (channel c1 c2), (channel c3 c4), (channel c5 c6).
  repeat split; try reflexivity; now apply channel_range.
Qed.

(** * getContrastColor *)

Lemma brightness_rgbOf (R G B : Z) :
  brightness (rgbOf R G B)
  = Fin ((inject_Z R * 299 + inject_Z G * 587 + inject_Z B * 114) / 1000)%Q.
Proof. reflexivity. Qed.

Lemma brightness_gt_128 (R G B : Z) :
  (128 < (inject_Z R * 299 + inject_Z G * 587 + inject_Z B * 114) / 1000)%Q
  <-> (128000 < R * 299 + G * 587 + B * 114)%Z.
Proof.
  unfold Qlt, Qdiv, Qmult, Qplus, Qinv, inject_Z. cbn [Qnum Qden]. lia.
Qed.

Lemma getContrastColor_rgbOf (s : string) (R G B : Z) :
  hexToRgb s = rgbOf R G B ->
  getContrastColor s
  = if (128000 <? R * 299 + G * 587 + B * 114)%Z then "#000000" else "#ffffff".
Proof.
  intros H. unfold getContrastColor. rewrite H, brightness_rgbOf.
  unfold num, ngt.
  destruct (128000 <? R * 299 + G * 587 + B * 114)%Z eqn:E.
  - apply Z.ltb_lt, brightness_gt_128 in E.
    destruct (Qle_bool _ _) eqn:Q; [| reflexivity].
    apply Qle_bool_iff in Q. exfalso. apply (Qlt_not_le _ _ E). exact Q.
  - apply Z.ltb_ge in E.
    destruct (Qle_bool _ _) eqn:Q; [reflexivity |].
    exfalso. assert (Hn : ~ (inject_Z 128 < (inject_Z R * 299 + inject_Z G * 587
                               + inject_Z B * 114) / 1000)%Q).
    { rewrite brightness_gt_128. lia. }
    apply Hn. apply Qnot_le_lt. intros Hle.
    apply Qle_bool_iff in Hle. congruence.
Qed.

Lemma getContrastColor_cases (s : string) :
  getContrastColor s = "#000000" \/ getContrastColor s = "#ffffff".
Proof.
  destruct (hexToRgb_channels s) as (R & G & B & H & _).
  rewrite (getContrastColor_rgbOf s R G B H).
  destruct (_ <? _)%Z; [left | right]; reflexivity.
Qed.

(** * The renderers on an input [isValidHex] accepts *)

Lemma isValidHex_true_inv (h : string) :
  isValidHex h = true ->
  exists body, h = String "#" body
               /\ (hexDigits 6 body = true \/ hexDigits 3 body = true).
Proof.
  rewrite isValidHex_eq. destruct h as [| c body]; [discriminate |].
  intros H. apply andb_prop in H. destruct H as [Hc Hb].
  apply Ascii.eqb_eq in Hc. subst c. exists body. split; [reflexivity |].
  now apply orb_prop in Hb.
Qed.

Lemma startsWith_valid (h : string) :
  isValidHex h = true -> JSString.startsWith h "#" = true.
Proof.
  intros H. destruct (isValidHex_true_inv h H) as (body & -> & _).
  unfold JSString.startsWith. cbn. now destruct body.
Qed.

Lemma createColoredHex_valid (h : string) (o : RenderOptions) :
  isValidHex h = true ->
  createColoredHex h o
  = {| DOM.tagName := elementKind o;
       DOM.className :=
         "colored-hex font-mono rounded "
           ++ toStr (sizeClasses (orDefault (size o) "md")) ++ " "
           ++ orDefault (className o) "";
       DOM.style :=
         {| DOM.backgroundColor := Some h;
            DOM.color := Some (getContrastColor h);
            DOM.border :=
              if orDefault (showBorder o) true
              then Some ("1px solid "
                           ++ (if getContrastColor h =? "#000000"
                               then "rgba(0,0,0,0.2)"
                               else "rgba(255,255,255,0.3)"))
              else None |};
       DOM.textContent := h |}.
Proof.
  intros H. unfold createColoredHex, elementKind.
  rewrite H, (startsWith_valid h H). cbn [negb].
  destruct o as [[md |] sz [[|] |] cn]; cbn [mode showBorder orDefault];
    try destruct (md =? "block"); reflexivity.
Qed.

Lemma append_assoc (a b c : string) : (a ++ b) ++ c = a ++ (b ++ c).
Proof. induction a as [| x a IH]; cbn; [reflexivity | now rewrite IH]. Qed.

(** On an accepted input the markup is the markup of the element. *)
Lemma createColoredHexHTML_valid (h : string) (o : RenderOptions) :
  isValidHex h = true ->
  createColoredHexHTML h o = markup (createColoredHex h o).
Proof.
  intros H. rewrite (createColoredHex_valid h o H).
  unfold createColoredHexHTML, markup, styleText, elementKind.
  rewrite H, (startsWith_valid h H).
  cbn [negb DOM.tagName DOM.className DOM.style DOM.textContent
       DOM.backgroundColor DOM.color DOM.border].
  destruct o as [[md |] sz [[|] |] cn]; cbn [mode showBorder orDefault];
    try destruct (md =? "block");
    rewrite ?append_assoc; cbn [append]; rewrite ?append_assoc;
    reflexivity.
Qed.

(** * isValidHex *)

(** X1: [isValidHex] accepts exactly the strings made of a [#] and six or
    three hexadecimal digits. *)
Lemma isValidHex_iff (s : string) :
  isValidHex s = true
  <-> exists body, s = "#" ++ body
                   /\ (String.length body = 6 \/ String.length body = 3)
                   /\ JSString.all isHexDigit body = true.
Proof.
  split.
  - intros H. destruct (isValidHex_true_inv s H) as (body & -> & Hb).
    exists body. split; [reflexivity |]. unfold hexDigits in Hb.
    destruct Hb as [Hb | Hb]; apply andb_prop in Hb; destruct Hb as [Hl Ha];
      apply Nat.eqb_eq in Hl; auto.
  - intros (body & -> & Hl & Ha). rewrite isValidHex_eq. cbn [append].
    rewrite Ascii.eqb_refl. cbn [andb].
    unfold hexDigits. rewrite Ha, !andb_true_r.
    destruct Hl as [-> | ->]; reflexivity.
Qed.

Lemma hexDigits_head (n : nat) (c : ascii) (s : string) :
  hexDigits n (String c s) = true -> isHexDigit c = true.
Proof.
  unfold hexDigits. cbn [JSString.all]. intros H.
  apply andb_prop in H. destruct H as [_ H].
  apply andb_prop in H. now destruct H.
Qed.

(** C1 (the code departs from it): a string of exactly six or exactly three
    hexadecimal digits is accepted by [isValidHex] when it carries the
    leading [#], and rejected when it does not; the [#] is not optional. *)
Theorem isValidHex_needs_hash (body : string) :
  hexDigits 6 body = true \/ hexDigits 3 body = true ->
  isValidHex ("#" ++ body) = true /\ isValidHex body = false.
Proof.
  intros H. rewrite !isValidHex_eq. cbn [append]. split.
  - rewrite Ascii.eqb_refl. cbn [andb]. now destruct H as [-> | ->]; rewrite ?orb_true_r.
  - destruct body as [| c body]; [reflexivity |].
    assert (Hc : isHexDigit c = true)
      by (destruct H as [H | H]; exact (hexDigits_head _ _ _ H)).
    now rewrite (hexDigit_not_hash c Hc).
Qed.

(** "#FF5733" is accepted, "FF5733" is not. *)
Lemma isValidHex_needs_hash_FF5733 :
  isValidHex "#FF5733" = true /\ isValidHex "FF5733" = false.
Proof. apply (isValidHex_needs_hash "FF5733"). left. reflexivity. Defined.

(** * The colour FF5733 *)

(** C2, as stated, fails: [createColoredHex "FF5733"] has no background
    colour, being the unstyled fallback span with text "FF5733"; and the
    brightness of the channels 255, 87 and 51 is 133.128, which is not
    within 1 of 177. *)
Lemma FF5733_not_as_stated :
  createColoredHex "FF5733" noOptions = plainText "FF5733"
  /\ DOM.backgroundColor (DOM.style (createColoredHex "FF5733" noOptions))
     <> Some "#FF5733"
  /\ (forall q : Q, brightness (rgbOf 255 87 51) = Fin q ->
                    ~ (176 <= q /\ q <= 178)%Q).
Proof.
  split; [vm_compute; reflexivity |]. split; [vm_compute; discriminate |].
  intros q H. vm_compute in H. injection H as <-.
  intros [H _]. vm_compute in H. apply H. reflexivity.
Qed.

(** C2, amended: for the colour "#FF5733" the channels are 255, 87 and 51,
    the brightness formula computes (255*299 + 87*587 + 51*114) / 1000 =
    133.128 > 128, and the text colour is "#000000"; [createColoredHex]
    applied to "#FF5733" returns a styled node whose background colour is
    "#FF5733", whose text is "#FF5733" and whose text colour is
    "#000000". *)
Theorem FF5733_swatch :
  hexToRgb "#FF5733" = rgbOf 255 87 51
  /\ brightness (hexToRgb "#FF5733") = Fin (133128 # 1000)
  /\ (128 < 133128 # 1000)%Q
  /\ getContrastColor "#FF5733" = "#000000"
  /\ createColoredHex "#FF5733" noOptions
     = {| DOM.tagName := "span";
          DOM.className := "colored-hex font-mono rounded text-xs px-2 py-1 ";
          DOM.style := {| DOM.backgroundColor := Some "#FF5733";
                          DOM.color := Some "#000000";
                          DOM.border := Some "1px solid rgba(0,0,0,0.2)" |};
          DOM.textContent := "#FF5733" |}.
Proof. vm_compute. repeat split. Qed.

(** * The size slot of the class string *)

Lemma sizeClasses_unknown (sz : string) :
  oneOf sz sizeKeys = false -> oneOf sz inheritedKeys = false ->
  sizeClasses sz = Undefined.
Proof.
  unfold oneOf, sizeKeys, inheritedKeys, sizeClasses, objectPrototypeGet.
  cbn [existsb]. intros H1 H2.
  repeat (apply orb_false_elim in H1; destruct H1 as [? H1]).
  repeat (apply orb_false_elim in H2; destruct H2 as [? H2]).
  repeat match goal with
    | E : (sz =? _) = false |- _ => rewrite E; clear E
    end.
  reflexivity.
Qed.

(** A size that names an inherited property puts the text of that property
    in the slot. *)
Example size_toString :
  DOM.className
    (createColoredHex "#fff"
       {| mode := None; size := Some "toString"; showBorder := None;
          className := None |})
  = "colored-hex font-mono rounded function toString() { [native code] } ".
Proof. vm_compute. reflexivity. Qed.

(** C3, as stated, fails: with the size "xl" the class string is
    "colored-hex font-mono rounded undefined ", whose size slot is neither
    empty nor left out. *)
Lemma size_slot_not_empty :
  ~ (forall (h : string) (o : RenderOptions) (sz : string),
        isValidHex h = true -> size o = Some sz -> oneOf sz sizeKeys = false ->
        sizeSlotEmpty o (DOM.className (createColoredHex h o))).
Proof.
  intros H.
  specialize (H "#fff"
                {| mode := None; size := Some "xl"; showBorder := None;
                   className := None |}
                "xl" eq_refl eq_refl eq_refl).
  vm_compute in H. destruct H as [H | H]; discriminate H.
Qed.

(** C3, amended: for every accepted input and every options object whose
    size is neither [sm], [md] nor [lg] nor the name of a property
    inherited from [Object.prototype], both renderers put the literal text
    [undefined] in the size slot of the class string, with no validation
    and no default. *)
Theorem unknown_size_reads_undefined
  (h : string) (o : RenderOptions) (sz : string) :
  isValidHex h = true ->
  size o = Some sz ->
  oneOf sz sizeKeys = false ->
  oneOf sz inheritedKeys = false ->
  DOM.className (createColoredHex h o)
  = "colored-hex font-mono rounded undefined " ++ orDefault (className o) ""
  /\ createColoredHexHTML h o
     = "<" ++ elementKind o ++ " class=" ++ dquote
         ++ "colored-hex font-mono rounded undefined "
         ++ orDefault (className o) "" ++ dquote
         ++ " style=" ++ dquote
         ++ styleText (DOM.style (createColoredHex h o)) ++ dquote ++ ">"
         ++ h ++ "</" ++ elementKind o ++ ">".
Proof.
  intros Hv Hs H1 H2.
  rewrite (createColoredHexHTML_valid h o Hv), (createColoredHex_valid h o Hv).
  unfold markup.
  cbn [DOM.className DOM.tagName DOM.style DOM.textContent].
  rewrite Hs. cbn [orDefault]. rewrite (sizeClasses_unknown sz H1 H2).
  cbn [toStr append]. rewrite ?append_assoc. split; reflexivity.
Qed.

(** The size "xl" on "#fff". *)
Lemma unknown_size_reads_undefined_xl :
  DOM.className
    (createColoredHex "#fff"
       {| mode := None; size := Some "xl"; showBorder := Some false;
          className := Some "swatch" |})
  = "colored-hex font-mono rounded undefined swatch"
  /\ createColoredHexHTML "#fff"
       {| mode := None; size := Some "xl"; showBorder := Some false;
          className := Some "swatch" |}
     = "<span class=" ++ dquote
         ++ "colored-hex font-mono rounded undefined swatch" ++ dquote
         ++ " style=" ++ dquote ++ "background-color: #fff; color: #ffffff; "
         ++ dquote ++ ">#fff</span>".
Proof.
  apply (unknown_size_reads_undefined "#fff"
           {| mode := None; size := Some "xl"; showBorder := Some false;
              className := Some "swatch" |} "xl");
    reflexivity.
Defined.

(** * The two renderers against each other *)

(** C4, as stated, fails: on the rejected input "not-a-color" with mode
    [block], [createColoredHex] returns a [span], not the [div] the mode
    asks for, and [createColoredHexHTML] returns the bare input, which is
    the markup of no element. *)
Lemma renderers_differ_on_rejected_input :
  ~ (forall (h : string) (o : RenderOptions), renderersAgree h o).
Proof.
  intros H.
  specialize (H "not-a-color"
                {| mode := Some "block"; size := None; showBorder := None;
                   className := None |}).
  destruct H as [H _]. vm_compute in H. discriminate H.
Qed.

(** C4, amended: for every input [isValidHex] accepts and every options
    object, [createColoredHexHTML] produces the styling [createColoredHex]
    applies: the same element kind ([div] for mode [block], [span]
    otherwise), class string, background colour, text colour, border
    declaration and text.  On a rejected input [createColoredHex] returns an
    unstyled [span] whatever the mode, and [createColoredHexHTML] the bare
    input with no element around it. *)
Theorem renderers_agree_on_accepted_input (h : string) (o : RenderOptions) :
  (isValidHex h = true ->
   renderersAgree h o
   /\ DOM.backgroundColor (DOM.style (createColoredHex h o)) = Some h
   /\ DOM.color (DOM.style (createColoredHex h o)) = Some (getContrastColor h)
   /\ DOM.textContent (createColoredHex h o) = h)
  /\ (isValidHex h = false ->
      createColoredHex h o = plainText h /\ createColoredHexHTML h o = h).
Proof.
  split; intros H.
  - split; [split |].
    + now rewrite (createColoredHex_valid h o H).
    + exact (createColoredHexHTML_valid h o H).
    + rewrite (createColoredHex_valid h o H). repeat split; reflexivity.
  - unfold createColoredHex, createColoredHexHTML. rewrite H.
    split; reflexivity.
Qed.

(** An accepted and a rejected input. *)
Lemma renderers_agree_on_accepted_input_example :
  renderersAgree "#FF5733"
    {| mode := Some "block"; size := Some "lg"; showBorder := None;
       className := Some "swatch" |}
  /\ createColoredHexHTML "not-a-color" noOptions = "not-a-color".
Proof.
  split.
  - apply (proj1 (renderers_agree_on_accepted_input "#FF5733"
                    {| mode := Some "block"; size := Some "lg";
                       showBorder := None; className := Some "swatch" |})).
    reflexivity.
  - apply (proj2 (renderers_agree_on_accepted_input "not-a-color" noOptions)).
    reflexivity.
Defined.

(** * hexToRgb *)

Lemma stripHash_append (body : string) : stripHash ("#" ++ body) = body.
Proof. reflexivity. Qed.

Lemma stripHash_hexDigit (c : ascii) (t : string) :
  isHexDigit c = true -> stripHash (String c t) = String c t.
Proof. intros H. apply stripHash_other. now apply hexDigit_not_hash. Qed.

(** C5: on six hexadecimal digits of either case, with or without a
    leading [#], [hexToRgb] returns the three channels the pairs of digits
    write, each an integer between 0 and 255; on every other string (another
    length, a character that is no hexadecimal digit, the three-digit
    shorthand) it returns [{r: 0, g: 0, b: 0}]. *)
Theorem hexToRgb_parses (s : string) :
  (forall c1 c2 c3 c4 c5 c6 : ascii,
      JSString.all isHexDigit
        (String c1 (String c2 (String c3 (String c4 (String c5
           (String c6 EmptyString)))))) = true ->
      s = String c1 (String c2 (String c3 (String c4 (String c5
            (String c6 EmptyString)))))
      \/ s = "#" ++ String c1 (String c2 (String c3 (String c4 (String c5
                      (String c6 EmptyString))))) ->
      hexToRgb s = rgbOf (channel c1 c2) (channel c3 c4) (channel c5 c6)
      /\ (0 <= channel c1 c2 <= 255)%Z
      /\ (0 <= channel c3 c4 <= 255)%Z
      /\ (0 <= channel c5 c6 <= 255)%Z)
  /\ (sixHexDigits s = false -> hexToRgb s = rgbOf 0 0 0)
  /\ hexToRgb "#FF5733" = rgbOf 255 87 51.
Proof.
  split; [| split].
  - intros c1 c2 c3 c4 c5 c6 Hall Hs.
    assert (Hstrip : stripHash s
                     = String c1 (String c2 (String c3 (String c4 (String c5
                         (String c6 EmptyString)))))).
    { destruct Hs as [-> | ->]; [| apply stripHash_append].
      apply stripHash_hexDigit. cbn [JSString.all] in Hall.
      apply andb_prop in Hall. now destruct Hall. }
    split.
    + rewrite hexToRgb_eq, Hstrip, Hall. reflexivity.
    + cbn [JSString.all] in Hall.
      repeat (apply andb_prop in Hall; destruct Hall as [? Hall]).
      repeat split; now apply channel_range.
  - intros H. apply hexToRgb_unmatched. now apply sixHexDigits_exec.
  - vm_compute. reflexivity.
Qed.

(** Six digits without [#], the shorthand, and a letter out of range. *)
Lemma hexToRgb_parses_examples :
  hexToRgb "ff5733" = rgbOf 255 87 51
  /\ hexToRgb "#fff" = rgbOf 0 0 0
  /\ hexToRgb "#GG5733" = rgbOf 0 0 0.
Proof.
  split; [| split].
  - apply (proj1 (hexToRgb_parses "ff5733") "f" "f" "5" "7" "3" "3")%char;
      [reflexivity | left; reflexivity].
  - apply (proj1 (proj2 (hexToRgb_parses "#fff"))). reflexivity.
  - apply (proj1 (proj2 (hexToRgb_parses "#GG5733"))). reflexivity.
Defined.

(** * getContrastColor *)

(** C6: for every string [h], with [R], [G] and [B] the channels
    [hexToRgb] parses, the brightness is (R*299 + G*587 + B*114) / 1000,
    and [getContrastColor h] is "#000000" exactly when the brightness
    exceeds 128 and "#ffffff" otherwise; it is always one of the two, the
    same for the same input, "#000000" for "#ffffff" and "#ffffff" for
    "#000000". *)
Theorem getContrastColor_threshold (h : string) :
  exists R G B : Z,
    hexToRgb h = rgbOf R G B
    /\ brightness (hexToRgb h)
       = Fin ((inject_Z R * 299 + inject_Z G * 587 + inject_Z B * 114) / 1000)%Q
    /\ (getContrastColor h = "#000000"
        <-> (128 < (inject_Z R * 299 + inject_Z G * 587 + inject_Z B * 114)
                   / 1000)%Q)
    /\ (getContrastColor h = "#ffffff"
        <-> ~ (128 < (inject_Z R * 299 + inject_Z G * 587 + inject_Z B * 114)
                     / 1000)%Q)
    /\ (getContrastColor h = "#000000" \/ getContrastColor h = "#ffffff")
    /\ (forall h' : string, h' = h -> getContrastColor h' = getContrastColor h)
    /\ getContrastColor "#ffffff" = "#000000"
    /\ getContrastColor "#000000" = "#ffffff".
Proof.
  destruct (hexToRgb_channels h) as (R & G & B & H & _).
  exists R, G, B. split; [exact H |].
  split; [now rewrite H |].
  assert (Hsame : forall h' : string,
             h' = h -> getContrastColor h' = getContrastColor h)
    by now intros h' ->.
  pose proof (getContrastColor_rgbOf h R G B H) as Hc.
  rewrite brightness_gt_128.
  destruct (128000 <? R * 299 + G * 587 + B * 114)%Z eqn:E.
  - apply Z.ltb_lt in E.
    split; [tauto |]. split; [rewrite Hc; split; [discriminate | tauto] |].
    split; [now left |]. split; [exact Hsame |]. split; reflexivity.
  - apply Z.ltb_ge in E.
    split; [rewrite Hc; split; [discriminate | lia] |].
    split; [split; [lia | exact (fun _ => Hc)] |].
    split; [now right |]. split; [exact Hsame |]. split; reflexivity.
Qed.

(** The brightness of "#FF5733" is 133.128, above the threshold. *)
Lemma getContrastColor_threshold_FF5733 :
  exists R G B : Z,
    hexToRgb "#FF5733" = rgbOf R G B
    /\ getContrastColor "#FF5733" = "#000000".
Proof.
  destruct (getContrastColor_threshold "#FF5733")
    as (R & G & B & H & _ & _ & _ & _ & _ & _ & _).
  exists R, G, B. split; [exact H | reflexivity].
Defined.

(** * Searching a text with unknown hexadecimal digits *)

Lemma mayStartAt_sound (needle : string) :
  forall tpl s, fits tpl s -> startsAt needle s = true ->
                mayStartAt needle tpl = true.
Proof.
  induction needle as [| a needle IH]; intros tpl s Hf Hs; [reflexivity |].
  destruct s as [| c s]; [discriminate Hs |].
  cbn [startsAt] in Hs. apply andb_prop in Hs. destruct Hs as [Hc Hs].
  apply Ascii.eqb_eq in Hc. subst c.
  destruct tpl as [| [k |] tpl]; cbn [fits] in Hf; try contradiction;
    destruct Hf as [Hk Hf]; cbn [mayStartAt mayBe];
    rewrite (IH tpl s Hf Hs), andb_true_r.
  - subst k. apply Ascii.eqb_refl.
  - exact Hk.
Qed.

Lemma mayOccur_sound (needle : string) :
  forall tpl s, fits tpl s -> occurs needle s = true ->
                mayOccur needle tpl = true.
Proof.
  induction tpl as [| i tpl IH]; intros s Hf Ho.
  - destruct s; [| contradiction]. cbn [occurs] in Ho. cbn [mayOccur].
    rewrite orb_false_r in *. exact (mayStartAt_sound needle [] _ Hf Ho).
  - destruct s as [| c s]; [destruct i; contradiction |].
    assert (Hf' : fits tpl s) by (destruct i; cbn [fits] in Hf; tauto).
    cbn [occurs] in Ho. cbn [mayOccur]. apply orb_prop in Ho.
    destruct Ho as [Ho | Ho].
    + now rewrite (mayStartAt_sound needle _ _ Hf Ho).
    + rewrite (IH s Hf' Ho). apply orb_true_r.
Qed.

Lemma absent (needle : string) (tpl : list item) (s : string) :
  fits tpl s -> mayOccur needle tpl = false -> occurs needle s = false.
Proof.
  intros Hf Hn. destruct (occurs needle s) eqn:E; [| reflexivity].
  rewrite (mayOccur_sound needle tpl s Hf E) in Hn. discriminate Hn.
Qed.

Lemma hexDigits_6_inv (body : string) :
  hexDigits 6 body = true -> fits (repeat AnyHex 6) body.
Proof.
  unfold hexDigits.
  destruct body as [| c1 [| c2 [| c3 [| c4 [| c5 [| c6 [| c7 t]]]]]]];
    try discriminate.
  cbn [String.length Nat.eqb andb JSString.all repeat fits]. intros H.
  repeat (apply andb_prop in H; destruct H as [? H]). tauto.
Qed.

Lemma hexDigits_3_inv (body : string) :
  hexDigits 3 body = true -> fits (repeat AnyHex 3) body.
Proof.
  unfold hexDigits.
  destruct body as [| c1 [| c2 [| c3 [| c4 t]]]]; try discriminate.
  cbn [String.length Nat.eqb andb JSString.all repeat fits]. intros H.
  repeat (apply andb_prop in H; destruct H as [? H]). tauto.
Qed.

Lemma fits_known (s : string) : fits (known s) s.
Proof. induction s as [| c s IH]; cbn; auto. Qed.

Lemma fits_app (t1 t2 : list item) :
  forall s1 s2, fits t1 s1 -> fits t2 s2 -> fits (t1 ++ t2) (s1 ++ s2).
Proof.
  induction t1 as [| i t1 IH]; intros s1 s2 H1 H2.
  - destruct s1; [exact H2 | contradiction].
  - destruct s1 as [| c s1]; [destruct i; contradiction |].
    destruct i; cbn [fits app append] in *; destruct H1 as [? H1];
      split; auto.
Qed.

(** * The border *)

Lemma fits_hash_body (n : nat) (body : string) :
  fits (repeat AnyHex n) body -> fits (Known "#" :: repeat AnyHex n) (String "#" body).
Proof. intros H. split; [reflexivity | exact H]. Qed.

Lemma blockNoBorder_markup (h : string) :
  isValidHex h = true ->
  createColoredHexHTML h blockNoBorder
  = "<div class=" ++ dquote
      ++ "colored-hex font-mono rounded text-xs px-2 py-1 " ++ dquote
      ++ " style=" ++ dquote ++ "background-color: " ++ h ++ "; color: "
      ++ getContrastColor h ++ "; " ++ dquote ++ ">" ++ h ++ "</div>".
Proof.
  intros H. unfold createColoredHexHTML.
  rewrite H, (startsWith_valid h H). reflexivity.
Qed.

Lemma blockNoBorder_no_border (h : string) :
  isValidHex h = true ->
  occurs "border" (createColoredHexHTML h blockNoBorder) = false.
Proof.
  intros H. rewrite (blockNoBorder_markup h H).
  destruct (isValidHex_true_inv h H) as (body & -> & Hb).
  assert (Hfit : exists n, fits (Known "#" :: repeat AnyHex n) (String "#" body)
                           /\ (n = 6 \/ n = 3)).
  { destruct Hb as [Hb | Hb]; [exists 6 | exists 3]; split; auto;
      apply fits_hash_body;
      [now apply hexDigits_6_inv | now apply hexDigits_3_inv]. }
  destruct Hfit as (n & Hfit & Hn).
  destruct (getContrastColor_cases (String "#" body)) as [-> | ->];
    (eapply absent;
     [ repeat (apply fits_app; [first [exact Hfit | apply fits_known] |]);
       apply fits_known
     | destruct Hn as [-> | ->]; vm_compute; reflexivity ]).
Qed.

(** C8: for every accepted input, when [showBorder] is true (or absent)
    both renderers apply a 1px solid border, low-opacity black when the
    text colour is black and low-opacity white when it is white; and
    [createColoredHexHTML(hex, {mode: "block", showBorder: false})] is a
    [div] whose style attribute declares the background colour and the
    text colour only, the word [border] occurring nowhere in it. *)
Theorem border_follows_text_color (h : string) (o : RenderOptions) :
  isValidHex h = true ->
  (orDefault (showBorder o) true = true ->
   DOM.color (DOM.style (createColoredHex h o)) = Some (getContrastColor h)
   /\ (getContrastColor h = "#000000" ->
       DOM.border (DOM.style (createColoredHex h o))
       = Some "1px solid rgba(0,0,0,0.2)"
       /\ createColoredHexHTML h o
          = "<" ++ elementKind o ++ " class=" ++ dquote
              ++ DOM.className (createColoredHex h o) ++ dquote
              ++ " style=" ++ dquote ++ "background-color: " ++ h
              ++ "; color: #000000; border: 1px solid rgba(0,0,0,0.2);"
              ++ dquote ++ ">" ++ h ++ "</" ++ elementKind o ++ ">")
   /\ (getContrastColor h = "#ffffff" ->
       DOM.border (DOM.style (createColoredHex h o))
       = Some "1px solid rgba(255,255,255,0.3)"
       /\ createColoredHexHTML h o
          = "<" ++ elementKind o ++ " class=" ++ dquote
              ++ DOM.className (createColoredHex h o) ++ dquote
              ++ " style=" ++ dquote ++ "background-color: " ++ h
              ++ "; color: #ffffff; border: 1px solid rgba(255,255,255,0.3);"
              ++ dquote ++ ">" ++ h ++ "</" ++ elementKind o ++ ">"))
  /\ createColoredHexHTML h blockNoBorder
     = "<div class=" ++ dquote
         ++ "colored-hex font-mono rounded text-xs px-2 py-1 " ++ dquote
         ++ " style=" ++ dquote ++ "background-color: " ++ h ++ "; color: "
         ++ getContrastColor h ++ "; " ++ dquote ++ ">" ++ h ++ "</div>"
  /\ occurs "border" (createColoredHexHTML h blockNoBorder) = false.
Proof.
  intros H. split; [| split].
  - intros Hb. rewrite (createColoredHexHTML_valid h o H).
    rewrite (createColoredHex_valid h o H). unfold markup, styleText.
    cbn [DOM.tagName DOM.className DOM.style DOM.textContent
         DOM.backgroundColor DOM.color DOM.border].
    rewrite Hb. split; [reflexivity |].
    split; intros ->; (split; [reflexivity |]);
      rewrite ?append_assoc; cbn [append String.eqb Ascii.eqb Bool.eqb];
      rewrite ?append_assoc; reflexivity.
  - exact (blockNoBorder_markup h H).
  - exact (blockNoBorder_no_border h H).
Qed.

(** A light and a dark colour. *)
Lemma border_follows_text_color_examples :
  DOM.border (DOM.style (createColoredHex "#FF5733" noOptions))
  = Some "1px solid rgba(0,0,0,0.2)"
  /\ DOM.border (DOM.style (createColoredHex "#102030" noOptions))
     = Some "1px solid rgba(255,255,255,0.3)"
  /\ occurs "border" (createColoredHexHTML "#FF5733" blockNoBorder) = false.
Proof.
  split; [| split].
  - apply (border_follows_text_color "#FF5733" noOptions); reflexivity.
  - apply (border_follows_text_color "#102030" noOptions); reflexivity.
  - apply (border_follows_text_color "#FF5733" noOptions). reflexivity.
Defined.

(** * The three-digit shorthand *)

(** C10: for every string the pattern of [hexToRgb] does not match,
    [hexToRgb] returns black and [getContrastColor] "#ffffff"; so is every
    [#] followed by three hexadecimal digits, which [isValidHex] accepts:
    both renderers render it as a styled swatch on its own colour with
    white text and, when the border is shown, the low-opacity white
    border. *)
Theorem shorthand_renders_white (s : string) (o : RenderOptions) :
  (exec hexToRgb_re s = None ->
   hexToRgb s = rgbOf 0 0 0 /\ getContrastColor s = "#ffffff")
  /\ (forall c1 c2 c3 : ascii,
         JSString.all isHexDigit (String c1 (String c2 (String c3 EmptyString)))
         = true ->
         s = "#" ++ String c1 (String c2 (String c3 EmptyString)) ->
         isValidHex s = true
         /\ exec hexToRgb_re s = None
         /\ getContrastColor s = "#ffffff"
         /\ createColoredHex s o
            = {| DOM.tagName := elementKind o;
                 DOM.className :=
                   "colored-hex font-mono rounded "
                     ++ toStr (sizeClasses (orDefault (size o) "md")) ++ " "
                     ++ orDefault (className o) "";
                 DOM.style :=
                   {| DOM.backgroundColor := Some s;
                      DOM.color := Some "#ffffff";
                      DOM.border :=
                        if orDefault (showBorder o) true
                        then Some "1px solid rgba(255,255,255,0.3)"
                        else None |};
                 DOM.textContent := s |}
         /\ createColoredHexHTML s o = markup (createColoredHex s o)).
Proof.
  assert (Hwhite : exec hexToRgb_re s = None ->
                   hexToRgb s = rgbOf 0 0 0 /\ getContrastColor s = "#ffffff").
  { intros H. pose proof (hexToRgb_unmatched s H) as Hz.
    split; [exact Hz |]. now rewrite (getContrastColor_rgbOf s 0 0 0 Hz). }
  split; [exact Hwhite |].
  intros c1 c2 c3 Hall ->.
  assert (Hv : isValidHex ("#" ++ String c1 (String c2 (String c3 EmptyString)))
               = true).
  { rewrite isValidHex_eq. cbn [append]. unfold hexDigits.
    rewrite Hall. reflexivity. }
  assert (Hn : exec hexToRgb_re
                 ("#" ++ String c1 (String c2 (String c3 EmptyString))) = None).
  { rewrite exec_hexToRgb. reflexivity. }
  destruct (Hwhite Hn) as [_ Hw].
  repeat split; try assumption.
  - rewrite (createColoredHex_valid _ o Hv), Hw. reflexivity.
  - exact (createColoredHexHTML_valid _ o Hv).
Qed.

(** White text on the white shorthand "#fff". *)
Lemma shorthand_renders_white_fff :
  getContrastColor "#fff" = "#ffffff"
  /\ DOM.color (DOM.style (createColoredHex "#fff" noOptions)) = Some "#ffffff"
  /\ getContrastColor "#12345" = "#ffffff".
Proof.
  split; [| split].
  - apply (proj2 (shorthand_renders_white "#fff" noOptions) "f" "f" "f")%char;
      reflexivity.
  - destruct (proj2 (shorthand_renders_white "#fff" noOptions) "f" "f" "f"
                eq_refl eq_refl)%char as (_ & _ & _ & He & _).
    rewrite He. reflexivity.
  - apply (proj1 (shorthand_renders_white "#12345" noOptions)). reflexivity.
Defined.

(** * Further properties of the colour functions *)

Lemma rgbOf_inj (R G B R' G' B' : Z) :
  rgbOf R G B = rgbOf R' G' B' -> R = R' /\ G = G' /\ B = B'.
Proof. unfold rgbOf, num, inject_Z. intros H. injection H. auto. Qed.

Lemma lowerChar_isHexDigit (c : ascii) :
  isHexDigit (lowerChar c) = isHexDigit c.
Proof. destruct c as [[] [] [] [] [] [] [] []]; vm_compute; reflexivity. Qed.

Lemma lowerChar_hexDigitValue (c : ascii) :
  isHexDigit c = true -> hexDigitValue (lowerChar c) = hexDigitValue c.
Proof.
  destruct c as [[] [] [] [] [] [] [] []]; vm_compute; intros H;
    try discriminate H; reflexivity.
Qed.

Lemma lowerChar_hash (c : ascii) :
  Ascii.eqb (lowerChar c) "#" = Ascii.eqb c "#".
Proof. destruct c as [[] [] [] [] [] [] [] []]; vm_compute; reflexivity. Qed.

Lemma lowerCase_length (s : string) :
  String.length (lowerCase s) = String.length s.
Proof. induction s as [| c s IH]; cbn; [reflexivity | now rewrite IH]. Qed.

Lemma lowerCase_all_hex (s : string) :
  JSString.all isHexDigit (lowerCase s) = JSString.all isHexDigit s.
Proof.
  induction s as [| c s IH]; cbn [lowerCase JSString.all]; [reflexivity |].
  now rewrite lowerChar_isHexDigit, IH.
Qed.

Lemma lowerCase_hexDigits (n : nat) (s : string) :
  hexDigits n (lowerCase s) = hexDigits n s.
Proof. unfold hexDigits. now rewrite lowerCase_length, lowerCase_all_hex. Qed.

Lemma lowerCase_stripHash (s : string) :
  stripHash (lowerCase s) = lowerCase (stripHash s).
Proof.
  destruct s as [| c t]; [reflexivity |]. cbn [lowerCase].
  destruct (Ascii.eqb c "#") eqn:E.
  - apply Ascii.eqb_eq in E. subst c. reflexivity.
  - rewrite (stripHash_other c t E).
    apply stripHash_other. now rewrite lowerChar_hash.
Qed.

Lemma lowerChar_channel (c1 c2 : ascii) :
  isHexDigit c1 = true -> isHexDigit c2 = true ->
  channel (lowerChar c1) (lowerChar c2) = channel c1 c2.
Proof.
  intros H1 H2. unfold channel. now rewrite !lowerChar_hexDigitValue.
Qed.

Lemma hexToRgb_lowerCase (s : string) : hexToRgb (lowerCase s) = hexToRgb s.
Proof.
  rewrite !hexToRgb_eq, lowerCase_stripHash.
  destruct (stripHash s)
    as [| c1 [| c2 [| c3 [| c4 [| c5 [| c6 [| c7 t]]]]]]]; try reflexivity.
  cbn [lowerCase].
  change (String (lowerChar c1) (String (lowerChar c2) (String (lowerChar c3)
            (String (lowerChar c4) (String (lowerChar c5)
               (String (lowerChar c6) EmptyString))))))
    with (lowerCase (String c1 (String c2 (String c3 (String c4 (String c5
                       (String c6 EmptyString))))))).
  rewrite lowerCase_all_hex.
  destruct (JSString.all isHexDigit _) eqn:Hall; [| reflexivity].
  cbn [JSString.all] in Hall.
  repeat (apply andb_prop in Hall; destruct Hall as [? Hall]).
  now rewrite !lowerChar_channel.
Qed.

(** X2: the three colour functions do not see the case of letters:
    lower-casing the input changes neither what [isValidHex] answers, nor
    the channels [hexToRgb] parses, nor the colour [getContrastColor]
    picks. *)
Theorem case_insensitive (s : string) :
  isValidHex (lowerCase s) = isValidHex s
  /\ hexToRgb (lowerCase s) = hexToRgb s
  /\ getContrastColor (lowerCase s) = getContrastColor s.
Proof.
  split; [| split].
  - rewrite !isValidHex_eq. destruct s as [| c body]; [reflexivity |].
    cbn [lowerCase]. now rewrite lowerChar_hash, !lowerCase_hexDigits.
  - apply hexToRgb_lowerCase.
  - unfold getContrastColor. now rewrite hexToRgb_lowerCase.
Qed.

Lemma stripHash_no_hash (s : string) :
  JSString.startsWith s "#" = false -> stripHash s = s.
Proof.
  destruct s as [| c t]; [reflexivity |].
  unfold JSString.startsWith. cbn [prefix].
  destruct (ascii_dec "#" c) as [<- | Hn].
  - destruct t; discriminate.
  - intros _. apply stripHash_other.
    destruct (Ascii.eqb_spec c "#") as [-> | _]; [now elim Hn | reflexivity].
Qed.

(** X3: a leading [#] is optional for [hexToRgb] and [getContrastColor]:
    putting a [#] in front of a string that does not start with one changes
    neither the channels nor the contrast colour. *)
Theorem hash_is_optional (s : string) :
  JSString.startsWith s "#" = false ->
  hexToRgb ("#" ++ s) = hexToRgb s
  /\ getContrastColor ("#" ++ s) = getContrastColor s.
Proof.
  intros H.
  assert (E : hexToRgb ("#" ++ s) = hexToRgb s).
  { rewrite !hexToRgb_eq, stripHash_append, (stripHash_no_hash s H).
    reflexivity. }
  split; [exact E |]. unfold getContrastColor. now rewrite E.
Qed.

(** The channels of "FF5733" with and without the [#]. *)
Lemma hash_is_optional_FF5733 :
  hexToRgb "#FF5733" = hexToRgb "FF5733"
  /\ getContrastColor "#FF5733" = getContrastColor "FF5733".
Proof. apply (hash_is_optional "FF5733"). reflexivity. Defined.

Lemma hexDigitValue_lower_inj (c d : ascii) :
  isHexDigit c = true -> isHexDigit d = true ->
  hexDigitValue c = hexDigitValue d -> lowerChar c = lowerChar d.
Proof.
  intros Hc Hd.
  destruct c as [[] [] [] [] [] [] [] []]; vm_compute in Hc; try discriminate Hc;
    clear Hc;
    destruct d as [[] [] [] [] [] [] [] []]; vm_compute in Hd;
    try discriminate Hd; vm_compute; intros H; try discriminate H;
    reflexivity.
Qed.

Lemma channel_inj (c1 c2 d1 d2 : ascii) :
  isHexDigit c1 = true -> isHexDigit c2 = true ->
  isHexDigit d1 = true -> isHexDigit d2 = true ->
  channel c1 c2 = channel d1 d2 ->
  lowerChar c1 = lowerChar d1 /\ lowerChar c2 = lowerChar d2.
Proof.
  intros Hc1 Hc2 Hd1 Hd2 H. unfold channel in H.
  pose proof (hexDigitValue_range c1 Hc1). pose proof (hexDigitValue_range c2 Hc2).
  pose proof (hexDigitValue_range d1 Hd1). pose proof (hexDigitValue_range d2 Hd2).
  split; apply hexDigitValue_lower_inj; auto; lia.
Qed.

Lemma sixHexDigits_inv (s : string) :
  sixHexDigits s = true ->
  exists c1 c2 c3 c4 c5 c6 : ascii,
    stripHash s = String c1 (String c2 (String c3 (String c4 (String c5
                    (String c6 EmptyString)))))
    /\ isHexDigit c1 = true /\ isHexDigit c2 = true /\ isHexDigit c3 = true
    /\ isHexDigit c4 = true /\ isHexDigit c5 = true /\ isHexDigit c6 = true.
Proof.
  unfold sixHexDigits, hexDigits.
  destruct (stripHash s)
    as [| c1 [| c2 [| c3 [| c4 [| c5 [| c6 [| c7 t]]]]]]]; try discriminate.
  cbn [String.length Nat.eqb andb JSString.all]. intros H.
  repeat (apply andb_prop in H; destruct H as [? H]).
  exists c1, c2, c3, c4, c5, c6. repeat split; assumption.
Qed.

(** X4: on strings of six hexadecimal digits (with or without the [#]),
    [hexToRgb] loses nothing but the case of the letters and the [#]: two
    such strings have the same channels exactly when their digits agree up
    to case. *)
Theorem hexToRgb_injective (s1 s2 : string) :
  sixHexDigits s1 = true -> sixHexDigits s2 = true ->
  (hexToRgb s1 = hexToRgb s2
   <-> lowerCase (stripHash s1) = lowerCase (stripHash s2)).
Proof.
  intros H1 H2.
  destruct (sixHexDigits_inv s1 H1)
    as (c1 & c2 & c3 & c4 & c5 & c6 & E1 & ? & ? & ? & ? & ? & ?).
  destruct (sixHexDigits_inv s2 H2)
    as (d1 & d2 & d3 & d4 & d5 & d6 & E2 & ? & ? & ? & ? & ? & ?).
  assert (A1 : JSString.all isHexDigit (stripHash s1) = true)
    by (unfold sixHexDigits, hexDigits in H1; apply andb_prop in H1; tauto).
  assert (A2 : JSString.all isHexDigit (stripHash s2) = true)
    by (unfold sixHexDigits, hexDigits in H2; apply andb_prop in H2; tauto).
  rewrite (hexToRgb_eq s1), (hexToRgb_eq s2), A1, A2, E1, E2.
  cbn [lowerCase]. split.
  - intros Heq. apply rgbOf_inj in Heq. destruct Heq as (Hr & Hg & Hb).
    apply channel_inj in Hr; auto. apply channel_inj in Hg; auto.
    apply channel_inj in Hb; auto.
    destruct Hr as [-> ->], Hg as [-> ->], Hb as [-> ->]. reflexivity.
  - intros Heq. injection Heq as L1 L2 L3 L4 L5 L6.
    rewrite <- (lowerChar_channel c1 c2), <- (lowerChar_channel c3 c4),
      <- (lowerChar_channel c5 c6) by assumption.
    rewrite L1, L2, L3, L4, L5, L6.
    now rewrite !lowerChar_channel.
Qed.

(** "#FF5733" and "ff5733" are the same colour; "#FF5733" and "#FF5734" are
    not. *)
Lemma hexToRgb_injective_examples :
  hexToRgb "#FF5733" = hexToRgb "ff5733"
  /\ hexToRgb "#FF5733" <> hexToRgb "#FF5734".
Proof.
  split.
  - apply (proj2 (hexToRgb_injective "#FF5733" "ff5733" eq_refl eq_refl)).
    reflexivity.
  - intros H.
    apply (proj1 (hexToRgb_injective "#FF5733" "#FF5734" eq_refl eq_refl)) in H.
    discriminate H.
Defined.

(** X5: an input [isValidHex] accepts has seven or four code units, and
    the pattern of [hexToRgb] fails on it exactly when it has four: the
    fallback to black hits the three-digit shorthand and nothing else that
    passes the validation. *)
Theorem accepted_unparsed_iff_shorthand (h : string) :
  isValidHex h = true ->
  (String.length h = 7 \/ String.length h = 4)
  /\ (exec hexToRgb_re h = None <-> String.length h = 4).
Proof.
  intros H. destruct (isValidHex_true_inv h H) as (body & -> & Hb).
  rewrite <- sixHexDigits_exec. unfold sixHexDigits. cbn [stripHash String.length].
  unfold hexDigits in *.
  destruct Hb as [Hb | Hb]; apply andb_prop in Hb; destruct Hb as [Hl Ha];
    apply Nat.eqb_eq in Hl; rewrite Hl, Ha; cbn [Nat.eqb andb].
  - split; [now left |]. split; [discriminate | discriminate].
  - split; [now right |]. split; reflexivity.
Qed.

(** "#FF5733" is parsed, "#F53" is not. *)
Lemma accepted_unparsed_iff_shorthand_examples :
  (exec hexToRgb_re "#F53" = None <-> String.length "#F53" = 4)
  /\ (exec hexToRgb_re "#FF5733" = None <-> String.length "#FF5733" = 4).
Proof.
  split.
  - apply (accepted_unparsed_iff_shorthand "#F53"). reflexivity.
  - apply (accepted_unparsed_iff_shorthand "#FF5733"). reflexivity.
Defined.

(** X6: for every string the channels [hexToRgb] returns are integers
    between 0 and 255 (never [NaN]), and the brightness [getContrastColor]
    computes from them lies between 0 and 255. *)
Theorem channels_and_brightness_in_range (s : string) :
  exists (R G B : Z) (q : Q),
    hexToRgb s = rgbOf R G B
    /\ (0 <= R <= 255)%Z /\ (0 <= G <= 255)%Z /\ (0 <= B <= 255)%Z
    /\ brightness (hexToRgb s) = Fin q
    /\ (0 <= q)%Q /\ (q <= 255)%Q.
Proof.
  destruct (hexToRgb_channels s) as (R & G & B & H & HR & HG & HB).
  exists R, G, B,
    ((inject_Z R * 299 + inject_Z G * 587 + inject_Z B * 114) / 1000)%Q.
  rewrite H, brightness_rgbOf. repeat split; try assumption; try lia;
    unfold Qle, Qdiv, Qmult, Qplus, Qinv, inject_Z; cbn [Qnum Qden]; lia.
Qed.

(** X7: [getContrastColor] is monotone in the channels: when a colour
    gets black text, so does every colour none of whose channels is
    smaller. *)
Theorem getContrastColor_monotone
  (h1 h2 : string) (R1 G1 B1 R2 G2 B2 : Z) :
  hexToRgb h1 = rgbOf R1 G1 B1 ->
  hexToRgb h2 = rgbOf R2 G2 B2 ->
  (R1 <= R2)%Z -> (G1 <= G2)%Z -> (B1 <= B2)%Z ->
  getContrastColor h1 = "#000000" ->
  getContrastColor h2 = "#000000".
Proof.
  intros E1 E2 HR HG HB.
  rewrite (getContrastColor_rgbOf h1 _ _ _ E1),
    (getContrastColor_rgbOf h2 _ _ _ E2).
  destruct (128000 <? R1 * 299 + G1 * 587 + B1 * 114)%Z eqn:L1;
    [| discriminate].
  apply Z.ltb_lt in L1. intros _.
  destruct (128000 <? R2 * 299 + G2 * 587 + B2 * 114)%Z eqn:L2;
    [reflexivity |].
  apply Z.ltb_ge in L2. lia.
Qed.

(** From "#909090" up to "#A0F0C0". *)
Lemma getContrastColor_monotone_example :
  getContrastColor "#A0F0C0" = "#000000".
Proof.
  apply (getContrastColor_monotone "#909090" "#A0F0C0"
           144 144 144 160 240 192);
    (reflexivity || lia).
Defined.

(** X8: on a grey, whose three channels are the same value [v], the text
    is black exactly from [v] = 129 on: the threshold 128 itself still gets
    white text. *)
Theorem grey_threshold (h : string) (v : Z) :
  hexToRgb h = rgbOf v v v ->
  (getContrastColor h = "#000000" <-> (129 <= v)%Z)
  /\ (getContrastColor h = "#ffffff" <-> (v <= 128)%Z).
Proof.
  intros E. rewrite (getContrastColor_rgbOf h _ _ _ E).
  destruct (128000 <? v * 299 + v * 587 + v * 114)%Z eqn:L.
  - apply Z.ltb_lt in L. repeat split; intros; try discriminate; try lia;
      reflexivity.
  - apply Z.ltb_ge in L. repeat split; intros; try discriminate; try lia;
      reflexivity.
Qed.

(** The greys 128 and 129. *)
Lemma grey_threshold_examples :
  getContrastColor "#808080" = "#ffffff"
  /\ getContrastColor "#818181" = "#000000".
Proof.
  split.
  - apply (proj2 (proj2 (grey_threshold "#808080" 128 eq_refl))). lia.
  - apply (proj2 (proj1 (grey_threshold "#818181" 129 eq_refl))). lia.
Defined.

(** X9: the green channel decides alone at its extremes: a colour whose
    green channel is at least 219 gets black text and one whose green
    channel is at most 38 gets white text, whatever red and blue are; 218
    and 39 do not suffice. *)
Theorem green_decides (h : string) (R G B : Z) :
  hexToRgb h = rgbOf R G B ->
  ((219 <= G)%Z -> getContrastColor h = "#000000")
  /\ ((G <= 38)%Z -> getContrastColor h = "#ffffff")
  /\ getContrastColor "#00DA00" = "#ffffff"
  /\ getContrastColor "#FF27FF" = "#000000".
Proof.
  intros E.
  destruct (hexToRgb_channels h) as (R' & G' & B' & E' & HR & HG & HB).
  rewrite E in E'. apply rgbOf_inj in E'. destruct E' as (<- & <- & <-).
  rewrite (getContrastColor_rgbOf h _ _ _ E).
  split; [| split; [| split; reflexivity]]; intros HG';
    destruct (128000 <? R * 299 + G * 587 + B * 114)%Z eqn:L;
    try reflexivity;
    [apply Z.ltb_ge in L | apply Z.ltb_lt in L]; lia.
Qed.

(** A saturated green and a magenta. *)
Lemma green_decides_examples :
  getContrastColor "#00FF00" = "#000000"
  /\ getContrastColor "#FF00FF" = "#ffffff".
Proof.
  split.
  - apply (proj1 (green_decides "#00FF00" 0 255 0 eq_refl)). lia.
  - apply (proj1 (proj2 (green_decides "#FF00FF" 255 0 255 eq_refl))). lia.
Defined.

(** X10: a colour and its complement (each channel taken from 255) never
    both get black text. *)
Theorem complement_not_both_black (h1 h2 : string) (R G B : Z) :
  hexToRgb h1 = rgbOf R G B ->
  hexToRgb h2 = rgbOf (255 - R) (255 - G) (255 - B) ->
  getContrastColor h1 = "#000000" ->
  getContrastColor h2 = "#ffffff".
Proof.
  intros E1 E2.
  rewrite (getContrastColor_rgbOf h1 _ _ _ E1),
    (getContrastColor_rgbOf h2 _ _ _ E2).
  destruct (128000 <? R * 299 + G * 587 + B * 114)%Z eqn:L1; [| discriminate].
  apply Z.ltb_lt in L1. intros _.
  destruct (128000 <? (255 - R) * 299 + (255 - G) * 587 + (255 - B) * 114)%Z
    eqn:L2; [| reflexivity].
  apply Z.ltb_lt in L2. lia.
Qed.

(** "#FF5733" and its complement "#00A8CC". *)
Lemma complement_not_both_black_example :
  getContrastColor "#00A8CC" = "#ffffff".
Proof.
  apply (complement_not_both_black "#FF5733" "#00A8CC" 255 87 51);
    reflexivity.
Defined.

(** * Further properties of the renderers *)

Lemma startsAt_prefix (n b : string) : startsAt n (n ++ b) = true.
Proof.
  induction n as [| c n IH]; [reflexivity |].
  cbn [append startsAt]. now rewrite Ascii.eqb_refl, IH.
Qed.

Lemma occurs_here (n x : string) : startsAt n x = true -> occurs n x = true.
Proof. intros H. destruct x; cbn [occurs]; rewrite H; reflexivity. Qed.

Lemma occurs_prefix (n b : string) : occurs n (n ++ b) = true.
Proof. apply occurs_here, startsAt_prefix. Qed.

Lemma occurs_refl (n : string) : occurs n n = true.
Proof.
  apply occurs_here. induction n as [| c n IH]; [reflexivity |].
  cbn [startsAt]. now rewrite Ascii.eqb_refl, IH.
Qed.

Lemma occurs_skip (n x y : string) :
  occurs n y = true -> occurs n (x ++ y) = true.
Proof.
  intros H. induction x as [| c x IH]; [exact H |].
  cbn [append occurs]. rewrite IH. apply orb_true_r.
Qed.

Ltac find_occurrence :=
  repeat first [apply occurs_refl | apply occurs_prefix | apply occurs_skip].

Lemma markup_rejected (s : string) (o : RenderOptions) :
  isValidHex (createColoredHexHTML s o) = false.
Proof.
  destruct (isValidHex s) eqn:H.
  - rewrite (createColoredHexHTML_valid s o H). unfold markup.
    cbn [append]. rewrite isValidHex_eq. reflexivity.
  - unfold createColoredHexHTML. rewrite H. exact H.
Qed.

(** X11: what [createColoredHexHTML] returns is never itself an accepted
    colour, so rendering it again changes nothing: [createColoredHexHTML]
    returns it as it is, and [createColoredHex] wraps it in the unstyled
    fallback span. *)
Theorem rendering_twice (s : string) (o o' : RenderOptions) :
  isValidHex (createColoredHexHTML s o) = false
  /\ createColoredHexHTML (createColoredHexHTML s o) o'
     = createColoredHexHTML s o
  /\ createColoredHex (createColoredHexHTML s o) o'
     = plainText (createColoredHexHTML s o).
Proof.
  pose proof (markup_rejected s o) as H. split; [exact H |].
  split.
  - unfold createColoredHexHTML at 1. now rewrite H.
  - unfold createColoredHex. now rewrite H.
Qed.

(** X12: both renderers carry the input as it was given, accepted or
    not: it is the text of the element [createColoredHex] returns, and it
    occurs in the string [createColoredHexHTML] returns. *)
Theorem input_is_kept (s : string) (o : RenderOptions) :
  DOM.textContent (createColoredHex s o) = s
  /\ occurs s (createColoredHexHTML s o) = true.
Proof.
  destruct (isValidHex s) eqn:H.
  - split; [now rewrite (createColoredHex_valid s o H) |].
    rewrite (createColoredHexHTML_valid s o H), (createColoredHex_valid s o H).
    unfold markup, styleText.
    cbn [DOM.tagName DOM.className DOM.style DOM.textContent
         DOM.backgroundColor DOM.color DOM.border].
    rewrite ?append_assoc. find_occurrence.
  - unfold createColoredHex, createColoredHexHTML. rewrite H.
    split; [reflexivity | apply occurs_refl].
Qed.

(** X13: the caller's [className] reaches both renderers as it is,
    whatever characters it holds: it occurs unchanged in the class string
    of the element and in the markup string. *)
Theorem className_is_not_escaped (h : string) (o : RenderOptions) (cn : string) :
  isValidHex h = true ->
  className o = Some cn ->
  occurs cn (DOM.className (createColoredHex h o)) = true
  /\ occurs cn (createColoredHexHTML h o) = true.
Proof.
  intros H Hc.
  rewrite (createColoredHexHTML_valid h o H), (createColoredHex_valid h o H).
  unfold markup.
  cbn [DOM.tagName DOM.className DOM.style DOM.textContent].
  rewrite Hc. cbn [orDefault]. rewrite ?append_assoc.
  split; find_occurrence.
Qed.

(** A class name that closes the attribute and opens another. *)
Lemma className_is_not_escaped_example :
  occurs ("x" ++ dquote ++ " onclick=" ++ dquote ++ "alert(1)")
    (createColoredHexHTML "#fff"
       {| mode := None; size := None; showBorder := None;
          className := Some ("x" ++ dquote ++ " onclick=" ++ dquote
                               ++ "alert(1)") |})
  = true.
Proof.
  apply (proj2 (className_is_not_escaped "#fff"
                  {| mode := None; size := None; showBorder := None;
                     className := Some ("x" ++ dquote ++ " onclick=" ++ dquote
                                          ++ "alert(1)") |}
                  ("x" ++ dquote ++ " onclick=" ++ dquote ++ "alert(1)")
                  eq_refl eq_refl)).
Defined.

(** X14: leaving a key out of the options is the same as passing the
    default its destructuring pattern names ([inline], [md], [true] and the
    empty class name), for both renderers and every input. *)
Theorem defaults_written_out (s : string) (o : RenderOptions) :
  createColoredHex s (withDefaults o) = createColoredHex s o
  /\ createColoredHexHTML s (withDefaults o) = createColoredHexHTML s o.
Proof.
  destruct o as [[md |] [sz |] [sb |] [cn |]]; split; reflexivity.
Qed.

(** X15: for every accepted input and every options object with
    [showBorder] false, whatever its mode, size and class name, the element
    has no border and the style attribute of the markup declares the
    background colour and the text colour only; the word [border] does not
    occur in it. *)
Theorem no_border_when_switched_off (h : string) (o : RenderOptions) :
  isValidHex h = true ->
  showBorder o = Some false ->
  DOM.border (DOM.style (createColoredHex h o)) = None
  /\ createColoredHexHTML h o
     = "<" ++ elementKind o ++ " class=" ++ dquote
         ++ DOM.className (createColoredHex h o) ++ dquote
         ++ " style=" ++ dquote
         ++ ("background-color: " ++ h ++ "; color: " ++ getContrastColor h
               ++ "; ")
         ++ dquote ++ ">" ++ h ++ "</" ++ elementKind o ++ ">"
  /\ occurs "border"
       ("background-color: " ++ h ++ "; color: " ++ getContrastColor h ++ "; ")
     = false.
Proof.
  intros H Hb. split; [| split].
  - rewrite (createColoredHex_valid h o H). cbn [DOM.style DOM.border].
    now rewrite Hb.
  - rewrite (createColoredHexHTML_valid h o H), (createColoredHex_valid h o H).
    unfold markup, styleText.
    cbn [DOM.tagName DOM.className DOM.style DOM.textContent
         DOM.backgroundColor DOM.color DOM.border].
    rewrite Hb. cbn [orDefault]. rewrite ?append_assoc. cbn [append].
    rewrite ?append_assoc. reflexivity.
  - destruct (isValidHex_true_inv h H) as (body & -> & Hd).
    assert (Hfit : exists n,
               fits (Known "#" :: repeat AnyHex n) (String "#" body)
               /\ (n = 6 \/ n = 3)).
    { destruct Hd as [Hd | Hd]; [exists 6 | exists 3]; split; auto;
        apply fits_hash_body;
        [now apply hexDigits_6_inv | now apply hexDigits_3_inv]. }
    destruct Hfit as (n & Hfit & Hn).
    destruct (getContrastColor_cases (String "#" body)) as [-> | ->];
      (eapply absent;
       [ repeat (apply fits_app; [first [exact Hfit | apply fits_known] |]);
         apply fits_known
       | destruct Hn as [-> | ->]; vm_compute; reflexivity ]).
Qed.

(** A block swatch with a caller's class and no border. *)
Lemma no_border_when_switched_off_example :
  DOM.border
    (DOM.style
       (createColoredHex "#FF5733"
          {| mode := Some "block"; size := Some "lg"; showBorder := Some false;
             className := Some "border-2" |}))
  = None.
Proof.
  apply (no_border_when_switched_off "#FF5733"
           {| mode := Some "block"; size := Some "lg";
              showBorder := Some false; className := Some "border-2" |});
    reflexivity.
Defined.

(** * Rounding to binary64

    The operations of the format are specified on mantissas and exponents
    ([SpecFloat]); what is proved here is that rounding to nearest does not
    cross a number of the format. *)

Section Rounding.
Local Open Scope Z_scope.

Lemma digits2_bounds (m : positive) :
  2 ^ (Zpos (digits2_pos m) - 1) <= Zpos m < 2 ^ Zpos (digits2_pos m).
Proof.
  induction m as [p IH | p IH |]; cbn [digits2_pos].
  - rewrite Pos2Z.inj_succ, (Pos2Z.inj_xI p).
    replace (Z.succ (Zpos (digits2_pos p)) - 1) with (Z.succ (Zpos (digits2_pos p) - 1)) by lia.
    rewrite !Z.pow_succ_r by lia. lia.
  - rewrite Pos2Z.inj_succ, (Pos2Z.inj_xO p).
    replace (Z.succ (Zpos (digits2_pos p)) - 1) with (Z.succ (Zpos (digits2_pos p) - 1)) by lia.
    rewrite !Z.pow_succ_r by lia. lia.
  - cbn. lia.
Qed.

Lemma shifted_shr_1 (m0 n : Z) (mrs : shr_record) :
  0 <= n -> shifted m0 n mrs -> shifted m0 (n + 1) (shr_1 mrs).
Proof.
  intros Hn (Hm & rem & E & Hr & Hz).
  assert (P : 2 ^ (n + 1) = 2 * 2 ^ n)
    by (rewrite Z.pow_add_r, Z.pow_1_r by lia; lia).
  destruct mrs as [m r s]. cbn [shr_m shr_r shr_s] in *.
  unfold shifted. rewrite P.
  destruct m as [| [p | p |] | p]; try lia; cbn [shr_1 shr_m shr_r shr_s].
  - split; [lia |]. exists rem. split; [lia |]. split; [lia |].
    intros H0. destruct (Hz H0) as [-> ->]. auto.
  - split; [lia |]. exists (2 ^ n + rem). rewrite (Pos2Z.inj_xI p) in E.
    split; [lia |]. split; [lia |]. intros; lia.
  - split; [lia |]. exists rem. rewrite (Pos2Z.inj_xO p) in E.
    split; [lia |]. split; [lia |]. intros H0. destruct (Hz H0) as [-> ->]. auto.
  - split; [lia |]. exists (2 ^ n + rem). split; [lia |]. split; [lia |]. intros; lia.
Qed.

Lemma shifted_iter (m0 : Z) (p : positive) :
  forall n mrs, 0 <= n -> shifted m0 n mrs ->
                shifted m0 (n + Zpos p) (SpecFloat.iter_pos shr_1 p mrs).
Proof.
  induction p as [p IH | p IH |]; intros n mrs Hn H; cbn [SpecFloat.iter_pos].
  - replace (n + Zpos p~1) with (n + 1 + Zpos p + Zpos p) by lia.
    apply IH; [lia |]. apply IH; [lia |]. now apply shifted_shr_1.
  - replace (n + Zpos p~0) with (n + Zpos p + Zpos p) by lia.
    apply IH; [lia |]. now apply IH.
  - now apply shifted_shr_1.
Qed.

Lemma shifted_start (m0 : Z) : 0 <= m0 -> shifted m0 0 (shr_record_of_loc m0 loc_Exact).
Proof.
  intros H. split; [exact H |]. exists 0. cbn. split; [lia |]. split; [lia |]. auto.
Qed.

(** [shr] by a shift that is not negative. *)
Lemma shifted_shr (m0 e s : Z) :
  0 <= m0 -> 0 <= s ->
  shifted m0 s (fst (shr (shr_record_of_loc m0 loc_Exact) e s))
  /\ snd (shr (shr_record_of_loc m0 loc_Exact) e s) = e + s.
Proof.
  intros Hm Hs. destruct s as [| p | p]; cbn [shr fst snd]; try lia.
  - split; [now apply shifted_start | lia].
  - split; [| reflexivity].
    apply (shifted_iter m0 p 0); [lia | now apply shifted_start].
Qed.

Lemma pow2_pos (n : Z) : 0 <= n -> 0 < 2 ^ n.
Proof. intros. apply Z.pow_pos_nonneg; lia. Qed.

Lemma pow2_lt_inv (x y : Z) : 0 <= y -> 2 ^ x < 2 ^ y -> x < y.
Proof. intros Hy H. apply (Z.pow_lt_mono_r_iff 2); lia. Qed.

Lemma dy_shift (m e s : Z) :
  -1200 <= e -> 0 <= s -> dy m (e + s) = dy (m * 2 ^ s) e.
Proof.
  intros He Hs. unfold dy.
  replace (e + s + 1200) with (s + (e + 1200)) by lia.
  rewrite Z.pow_add_r by lia. ring.
Qed.

Lemma dy_le_cancel (a b e : Z) : -1200 <= e -> dy a e <= dy b e -> a <= b.
Proof.
  unfold dy. intros He H.
  assert (0 < 2 ^ (e + 1200)) by (apply pow2_pos; lia). nia.
Qed.

Lemma dy_le_mono (a b e : Z) : -1200 <= e -> a <= b -> dy a e <= dy b e.
Proof.
  unfold dy. intros He H.
  assert (0 < 2 ^ (e + 1200)) by (apply pow2_pos; lia). nia.
Qed.

Lemma canonical_digits (m : positive) (e : Z) :
  canonical_mantissa prec emax m e = true ->
  Zpos (digits2_pos m) <= 53 /\ -1074 <= e
  /\ (e = -1074 \/ Zpos (digits2_pos m) = 53).
Proof.
  unfold canonical_mantissa, fexp, SpecFloat.emin, prec, emax.
  intros H. apply Z.eqb_eq in H. lia.
Qed.

(** A larger dyadic number has at least the exponent of a smaller one,
    once both are brought to the format. *)
Lemma fexp_le (m : positive) (e : Z) (mF : positive) (eF : Z) :
  -1200 <= e ->
  canonical_mantissa prec emax mF eF = true ->
  dy (Zpos m) e <= dy (Zpos mF) eF ->
  fexp prec emax (Zpos (digits2_pos m) + e) <= eF.
Proof.
  intros He HF H. pose proof (canonical_digits mF eF HF) as (HdF & HeF & _).
  assert (Hmag : Zpos (digits2_pos m) + e <= Zpos (digits2_pos mF) + eF).
  { pose proof (digits2_bounds m) as [Hlo _].
    pose proof (digits2_bounds mF) as [_ Hhi].
    unfold dy in H.
    assert (Pa : 0 < 2 ^ (e + 1200)) by (apply pow2_pos; lia).
    assert (Pb : 0 < 2 ^ (eF + 1200)) by (apply pow2_pos; lia).
    assert (L : 2 ^ (Zpos (digits2_pos m) - 1 + (e + 1200))
                < 2 ^ (Zpos (digits2_pos mF) + (eF + 1200))).
    { rewrite (Z.pow_add_r 2 (Zpos (digits2_pos m) - 1)) by lia.
      rewrite (Z.pow_add_r 2 (Zpos (digits2_pos mF))) by lia.
      apply Z.le_lt_trans with (Zpos m * 2 ^ (e + 1200)).
      - apply Z.mul_le_mono_nonneg_r; lia.
      - apply Z.le_lt_trans with (Zpos mF * 2 ^ (eF + 1200)); [exact H |].
        apply Z.mul_lt_mono_pos_r; lia. }
    apply pow2_lt_inv in L; lia. }
  unfold canonical_mantissa in HF. apply Z.eqb_eq in HF.
  rewrite <- HF. unfold fexp. lia.
Qed.

Lemma rne_bounds (mrs : shr_record) :
  shr_m mrs <= round_nearest_even (shr_m mrs) (loc_of_shr_record mrs)
  <= shr_m mrs + 1
  /\ (shr_r mrs = false -> shr_s mrs = false ->
      round_nearest_even (shr_m mrs) (loc_of_shr_record mrs) = shr_m mrs).
Proof.
  destruct mrs as [m [] []]; cbn; try destruct (Z.even m); split; try lia;
    intros; try discriminate; reflexivity.
Qed.

(** What [shr], by any amount, leaves of an exact mantissa. *)
Lemma shr_le (M E s : Z) :
  0 <= M -> -1200 <= E ->
  let r := shr (shr_record_of_loc M loc_Exact) E s in
  0 <= shr_m (fst r) /\ E <= snd r /\ dy (shr_m (fst r)) (snd r) <= dy M E.
Proof.
  intros HM HE. destruct (Z_lt_le_dec s 0) as [Hs | Hs].
  - destruct s; try lia. cbn. split; [exact HM |]. split; lia.
  - destruct (shifted_shr M E s HM Hs) as [(H0 & rem & Eq & Hr & _) Hsnd].
    cbv zeta. rewrite Hsnd. split; [exact H0 |]. split; [lia |].
    rewrite dy_shift by lia. apply dy_le_mono; lia.
Qed.

(** Rounding does not cross a number of the format: a dyadic number that
    is at most the canonical [mF * 2^eF] rounds to zero or to a positive
    number that is at most [mF * 2^eF]. *)
Lemma round_upper (m : positive) (e : Z) (mF : positive) (eF : Z) :
  -1200 <= e ->
  e <= fexp prec emax (Zpos (digits2_pos m) + e) ->
  canonical_mantissa prec emax mF eF = true ->
  eF <= 0 ->
  dy (Zpos m) e <= dy (Zpos mF) eF ->
  binary_round_aux prec emax false (Zpos m) e loc_Exact = S754_zero false
  \/ exists m' e',
      binary_round_aux prec emax false (Zpos m) e loc_Exact
      = S754_finite false m' e'
      /\ dy (Zpos m') e' <= dy (Zpos mF) eF.
Proof.
  intros He Hs HF HeF H.
  pose proof (fexp_le m e mF eF He HF H) as HE.
  pose proof (canonical_digits mF eF HF) as (HdF & HeFlo & _).
  unfold binary_round_aux, shr_fexp. cbn [Zdigits2].
  set (E := fexp prec emax (Zpos (digits2_pos m) + e)) in *.
  destruct (shifted_shr (Zpos m) e (E - e)) as [Hsh Hsnd]; [lia | lia |].
  destruct (shr (shr_record_of_loc (Zpos m) loc_Exact) e (E - e))
    as [mrs' e'] eqn:Es1.
  cbn [fst snd] in Hsh, Hsnd. replace (e + (E - e)) with E in Hsnd by lia.
  subst e'.
  destruct Hsh as (HM & rem & Em & Hrem & Hex).
  destruct (rne_bounds mrs') as [HM' Hexact].
  set (M' := round_nearest_even (shr_m mrs') (loc_of_shr_record mrs')) in *.
  (* the rounded mantissa stays below the bound *)
  assert (Hup : dy M' E <= dy (Zpos mF) eF).
  { replace eF with (E + (eF - E)) by lia.
    rewrite (dy_shift (Zpos mF)) by lia.
    apply dy_le_mono; [lia |].
    assert (Hm : Zpos m <= Zpos mF * 2 ^ (eF - E) * 2 ^ (E - e)).
    { apply (dy_le_cancel _ _ e He).
      rewrite <- (dy_shift _ e (E - e)) by lia.
      replace (e + (E - e)) with E by lia.
      rewrite <- (dy_shift _ E (eF - E)) by lia.
      now replace (E + (eF - E)) with eF by lia. }
    assert (P : 0 < 2 ^ (E - e)) by (apply pow2_pos; lia).
    destruct (Z.eq_dec rem 0) as [R0 | R0].
    - destruct (Hex R0) as [Hr Hss]. rewrite (Hexact Hr Hss). nia.
    - assert (shr_m mrs' < Zpos mF * 2 ^ (eF - E)) by nia. lia. }
  assert (HM'0 : 0 <= M') by lia.
  pose proof (shr_le M' E (fexp prec emax (Zdigits2 M' + E) - E) HM'0
                ltac:(lia)) as Hle.
  cbv zeta in Hle.
  destruct (shr (shr_record_of_loc M' loc_Exact) E
              (fexp prec emax (Zdigits2 M' + E) - E)) as [mrs'' e''] eqn:Es2.
  cbn [fst snd] in Hle. destruct Hle as (H0 & HEe & Hdy).
  destruct (shr_m mrs'') as [| m'' | m''] eqn:Em''; [now left | | lia].
  right.
  assert (Hfin : dy (Zpos m'') e'' <= dy (Zpos mF) eF) by lia.
  assert (He'' : e'' <= emax - prec).
  { unfold dy in Hfin.
    pose proof (digits2_bounds mF) as [_ Hhi].
    assert (Pb : 0 < 2 ^ (eF + 1200)) by (apply pow2_pos; lia).
    assert (Pa : 0 < 2 ^ (e'' + 1200)) by (apply pow2_pos; lia).
    assert (L : 2 ^ (e'' + 1200) < 2 ^ (53 + (eF + 1200))).
    { rewrite (Z.pow_add_r 2 53) by lia.
      apply Z.le_lt_trans with (Zpos m'' * 2 ^ (e'' + 1200)); [nia |].
      apply Z.le_lt_trans with (Zpos mF * 2 ^ (eF + 1200)); [exact Hfin |].
      apply Z.mul_lt_mono_pos_r; [lia |].
      apply Z.lt_le_trans with (2 ^ Zpos (digits2_pos mF)); [exact Hhi |].
      apply Z.pow_le_mono_r; lia. }
    apply pow2_lt_inv in L; [| lia]. unfold emax, prec. lia. }
  apply Z.leb_le in He''. rewrite He''.
  exists m'', e''. split; [reflexivity | exact Hfin].
Qed.

Lemma valid_finite (s : bool) (m : positive) (e : Z) :
  valid_binary (S754_finite s m e) = true ->
  canonical_mantissa prec emax m e = true.
Proof.
  cbn [SpecFloat.valid_binary]. unfold bounded. intros H.
  apply andb_prop in H. tauto.
Qed.

(** Canonical positive numbers compare as their values do. *)
Lemma SFleb_dy (m1 : positive) (e1 : Z) (m2 : positive) (e2 : Z) :
  canonical_mantissa prec emax m1 e1 = true ->
  canonical_mantissa prec emax m2 e2 = true ->
  (SFleb (S754_finite false m1 e1) (S754_finite false m2 e2) = true
   <-> dy (Zpos m1) e1 <= dy (Zpos m2) e2).
Proof.
  intros C1 C2.
  pose proof (canonical_digits m1 e1 C1) as (D1 & L1 & N1).
  pose proof (canonical_digits m2 e2 C2) as (D2 & L2 & N2).
  pose proof (digits2_bounds m1) as [Lo1 Hi1].
  pose proof (digits2_bounds m2) as [Lo2 Hi2].
  assert (B1 : Zpos m1 < 2 ^ 53)
    by (apply Z.lt_le_trans with (2 ^ Zpos (digits2_pos m1)); [lia |];
        apply Z.pow_le_mono_r; lia).
  assert (B2 : Zpos m2 < 2 ^ 53)
    by (apply Z.lt_le_trans with (2 ^ Zpos (digits2_pos m2)); [lia |];
        apply Z.pow_le_mono_r; lia).
  unfold SFleb. cbn [SFcompare].
  destruct (Z.compare_spec e1 e2) as [Heq | Hlt | Hgt].
  - subst e2. change (Pos.compare_cont Eq m1 m2) with (Pos.compare m1 m2).
    split.
    + intros H. apply dy_le_mono; [lia |].
      destruct (Pos.compare_spec m1 m2); try discriminate; lia.
    + intros H. apply dy_le_cancel in H; [| lia].
      destruct (Pos.compare_spec m1 m2); try reflexivity; lia.
  - split; [intros _ | reflexivity].
    assert (M2 : 2 ^ 52 <= Zpos m2)
      by (destruct N2 as [? | N2]; [lia | now rewrite N2 in Lo2]).
    replace e2 with (e1 + (e2 - e1)) by lia.
    rewrite dy_shift by lia. apply dy_le_mono; [lia |].
    assert (2 ^ 1 <= 2 ^ (e2 - e1)) by (apply Z.pow_le_mono_r; lia).
    change (2 ^ 53) with (2 ^ 52 * 2 ^ 1) in B1. nia.
  - split; [discriminate | intros H; exfalso].
    assert (M1 : 2 ^ 52 <= Zpos m1)
      by (destruct N1 as [? | N1]; [lia | now rewrite N1 in Lo1]).
    replace e1 with (e2 + (e1 - e2)) in H by lia.
    rewrite dy_shift in H by lia. apply dy_le_cancel in H; [| lia].
    assert (2 ^ 1 <= 2 ^ (e1 - e2)) by (apply Z.pow_le_mono_r; lia).
    change (2 ^ 53) with (2 ^ 52 * 2 ^ 1) in B2. nia.
Qed.

Lemma upTo_of_leb (mF : positive) (eF : Z) (x : spec_float) :
  canonical_mantissa prec emax mF eF = true ->
  valid_binary x = true ->
  SFleb (S754_zero false) x = true ->
  SFleb x (S754_finite false mF eF) = true ->
  upTo mF eF x.
Proof.
  intros CF Hv H0 H1. destruct x as [s | s | | s m e]; cbn [upTo].
  - exact I.
  - destruct s; discriminate.
  - discriminate.
  - destruct s; [discriminate |].
    apply (SFleb_dy m e mF eF); [now apply (valid_finite false) | exact CF | exact H1].
Qed.

Lemma upTo_leb (mF : positive) (eF : Z) (x : spec_float) :
  canonical_mantissa prec emax mF eF = true ->
  valid_binary x = true ->
  upTo mF eF x ->
  SFleb (S754_zero false) x = true
  /\ SFleb x (S754_finite false mF eF) = true.
Proof.
  intros CF Hv H. destruct x as [s | s | | s m e]; cbn [upTo] in H;
    try contradiction.
  - split; reflexivity.
  - destruct s; [contradiction |]. split; [reflexivity |].
    apply (SFleb_dy m e mF eF); [now apply (valid_finite false) | exact CF | exact H].
Qed.

Lemma upTo_weaken (mF : positive) (eF : Z) (mG : positive) (eG : Z)
  (x : spec_float) :
  dy (Zpos mF) eF <= dy (Zpos mG) eG -> upTo mF eF x -> upTo mG eG x.
Proof.
  intros H. destruct x as [s | s | | [] m e]; cbn [upTo]; auto; lia.
Qed.

(** The product of a normal constant of at most 1 with a number of at
    most 1 is at most the constant. *)
Lemma upTo_mul (mc : positive) (ec : Z) (x : spec_float) :
  canonical_mantissa prec emax mc ec = true ->
  Zpos (digits2_pos mc) = 53 ->
  -100 <= ec <= 0 ->
  valid_binary x = true ->
  upTo 4503599627370496 (-52) x ->
  upTo mc ec (SFmul prec emax (S754_finite false mc ec) x).
Proof.
  intros Cc Dc Hec Hv Hx.
  destruct x as [s | s | | [] mx ex]; cbn [upTo] in Hx; try contradiction.
  - exact I.
  - pose proof (canonical_digits mx ex (valid_finite false mx ex Hv))
      as (_ & Hex & _).
    cbn [SFmul xorb].
    destruct (round_upper (mc * mx) (ec + ex) mc ec) as [-> | (m' & e' & -> & H)];
      try exact I; try exact H; try lia; try exact Cc.
    + (* enough digits *)
      pose proof (digits2_bounds mc) as [Lc _].
      pose proof (digits2_bounds (mc * mx)) as [_ Hp].
      rewrite Dc in Lc.
      assert (L : 2 ^ 52 < 2 ^ Zpos (digits2_pos (mc * mx))).
      { apply Z.le_lt_trans with (Zpos (mc * mx)); [| exact Hp].
        rewrite Pos2Z.inj_mul. nia. }
      apply pow2_lt_inv in L; [| lia].
      unfold fexp, prec. lia.
    + (* the exact product is at most the constant *)
      unfold dy in *. rewrite Pos2Z.inj_mul.
      change (Zpos 4503599627370496 * 2 ^ (-52 + 1200)) with (2 ^ 1200) in Hx.
      assert (P1 : 2 ^ (ex + 1200) = 2 ^ (- ec) * 2 ^ (ec + ex + 1200)).
      { rewrite <- Z.pow_add_r by lia. f_equal. lia. }
      assert (P2 : 2 ^ 1200 = 2 ^ (- ec) * 2 ^ (ec + 1200)).
      { rewrite <- Z.pow_add_r by lia. f_equal. lia. }
      assert (P3 : 0 < 2 ^ (- ec)) by (apply pow2_pos; lia).
      rewrite P1, P2 in Hx.
      assert (Zpos mx * 2 ^ (ec + ex + 1200) <= 2 ^ (ec + 1200)) by nia.
      nia.
Qed.

Lemma iter_xO (m d : positive) :
  Zpos (Pos.iter xO m d) = Zpos m * 2 ^ Zpos d
  /\ Zpos (digits2_pos (Pos.iter xO m d)) = Zpos (digits2_pos m) + Zpos d.
Proof.
  induction d as [| d IH] using Pos.peano_ind.
  - cbn [Pos.iter digits2_pos]. rewrite Pos2Z.inj_succ. split; lia.
  - rewrite Pos.iter_succ. cbn [digits2_pos].
    rewrite !Pos2Z.inj_succ, (Pos2Z.inj_xO (Pos.iter xO m d)).
    destruct IH as [-> ->]. rewrite Z.pow_succ_r by lia. split; lia.
Qed.

(** Aligning to a smaller exponent keeps the value and the magnitude. *)
Lemma shl_align_dy (m : positive) (e e' : Z) :
  -1200 <= e' -> e' <= e ->
  snd (shl_align m e e') = e'
  /\ dy (Zpos (fst (shl_align m e e'))) e' = dy (Zpos m) e
  /\ Zpos (digits2_pos (fst (shl_align m e e'))) + e'
     = Zpos (digits2_pos m) + e.
Proof.
  intros He' Hle. unfold shl_align.
  destruct (e' - e) as [| d | d] eqn:Ed; try lia; cbn [fst snd].
  - assert (e' = e) by lia. subst e'. auto.
  - destruct (iter_xO m d) as [Hv Hd]. rewrite Hv, Hd.
    assert (Zpos d = e - e') by lia.
    split; [reflexivity |]. split; [| lia].
    replace e with (e' + Zpos d) by lia. now rewrite dy_shift by lia.
Qed.

Lemma dy_add (a b e : Z) : dy (a + b) e = dy a e + dy b e.
Proof. unfold dy. ring. Qed.

(** [binary_round] on a positive mantissa, against a number of the
    format. *)
Lemma round_upper_normalize (m : positive) (e : Z) (mF : positive) (eF : Z) :
  -1074 <= e ->
  canonical_mantissa prec emax mF eF = true ->
  eF <= 0 ->
  dy (Zpos m) e <= dy (Zpos mF) eF ->
  upTo mF eF (binary_round prec emax false m e).
Proof.
  intros He CF HeF H. unfold binary_round.
  set (f := fexp prec emax (Zpos (digits2_pos m) + e)).
  assert (Hf : -1074 <= f) by (unfold f, fexp, SpecFloat.emin, prec, emax; lia).
  destruct (Z_le_gt_dec f e) as [Hfe | Hfe].
  - destruct (shl_align_dy m e f) as (Hs & Hv & Hd); [lia | lia |].
    destruct (shl_align m e f) as [mz ez]. cbn [fst snd] in *. subst ez.
    destruct (round_upper mz f mF eF) as [-> | (m' & e' & -> & Hr)];
      try exact I; try exact Hr; try exact CF; try lia.
    rewrite Hd. fold f. lia.
  - assert (Es : shl_align m e f = (m, e)).
    { unfold shl_align. destruct (f - e) eqn:Ed; try reflexivity; lia. }
    rewrite Es.
    destruct (round_upper m e mF eF) as [-> | (m' & e' & -> & Hr)];
      try exact I; try exact Hr; try exact CF; try lia.
Qed.

(** The sum of two numbers that are at most [A] and [B] is at most any
    number of the format that is at least [A + B]. *)
Lemma upTo_add (mA : positive) (eA : Z) (mB : positive) (eB : Z)
  (mS : positive) (eS : Z) (x y : spec_float) :
  canonical_mantissa prec emax mS eS = true ->
  eS <= 0 -> -1200 <= eA -> -1200 <= eB ->
  dy (Zpos mA) eA + dy (Zpos mB) eB <= dy (Zpos mS) eS ->
  valid_binary x = true -> valid_binary y = true ->
  upTo mA eA x -> upTo mB eB y ->
  upTo mS eS (SFadd prec emax x y).
Proof.
  intros CS HeS HeA HeB Hsum Vx Vy Hx Hy.
  assert (PA : 0 < dy (Zpos mA) eA)
    by (unfold dy; pose proof (pow2_pos (eA + 1200)); nia).
  assert (PB : 0 < dy (Zpos mB) eB)
    by (unfold dy; pose proof (pow2_pos (eB + 1200)); nia).
  destruct x as [sx | sx | | [] mx ex]; cbn [upTo] in Hx; try contradiction;
    destruct y as [sy | sy | | [] my ey]; cbn [upTo] in Hy; try contradiction;
    cbn [SFadd].
  - destruct sx, sy; exact I.
  - cbn [upTo]. lia.
  - cbn [upTo]. lia.
  - pose proof (canonical_digits mx ex (valid_finite false mx ex Vx))
      as (_ & Lx & _).
    pose proof (canonical_digits my ey (valid_finite false my ey Vy))
      as (_ & Ly & _).
    cbv zeta. cbn [cond_Zopp].
    destruct (shl_align_dy mx ex (Z.min ex ey)) as (_ & Hvx & _); [lia | lia |].
    destruct (shl_align_dy my ey (Z.min ex ey)) as (_ & Hvy & _); [lia | lia |].
    cbn [Z.add binary_normalize].
    apply round_upper_normalize; [lia | exact CS | exact HeS |].
    rewrite Pos2Z.inj_add, dy_add, Hvx, Hvy. lia.
Qed.

End Rounding.

(** * getLuminance *)

Lemma inUnit_upTo (x : float) :
  inUnit x = true -> upTo 4503599627370496 (-52) (Prim2SF x).
Proof.
  unfold inUnit. intros H. apply andb_prop in H. destruct H as [H0 H1].
  rewrite leb_spec in H0, H1.
  apply upTo_of_leb; [reflexivity | apply Prim2SF_valid | exact H0 | exact H1].
Qed.

Lemma upTo_inUnit (x : float) :
  upTo 4503599627370496 (-52) (Prim2SF x) -> inUnit x = true.
Proof.
  intros H. unfold inUnit. rewrite !leb_spec.
  destruct (upTo_leb 4503599627370496 (-52) (Prim2SF x)) as [H0 H1];
    [reflexivity | apply Prim2SF_valid | exact H |].
  change (Prim2SF 0) with (S754_zero false).
  change (Prim2SF 1) with (S754_finite false 4503599627370496 (-52)).
  now rewrite H0, H1.
Qed.

(** The weighted sum of three numbers between 0 and 1 is between 0 and
    1: every rounding stays below the bound it has for the largest
    operands. *)
Lemma weighted_sum_inUnit (r g b : float) :
  inUnit r = true -> inUnit g = true -> inUnit b = true ->
  inUnit (0.2126 * r + 0.7152 * g + 0.0722 * b)%float = true.
Proof.
  intros Hr Hg Hb. apply upTo_inUnit.
  rewrite !add_spec, !mul_spec.
  change (Prim2SF 0.2126) with (S754_finite false 7659722246231740 (-55)).
  change (Prim2SF 0.7152) with (S754_finite false 6441948906990757 (-53)).
  change (Prim2SF 0.0722) with (S754_finite false 5202558289538397 (-56)).
  unfold SF64add, SF64mul.
  assert (A : upTo 7659722246231740 (-55)
                (SFmul prec emax (S754_finite false 7659722246231740 (-55))
                   (Prim2SF r)))
    by (apply upTo_mul; [reflexivity | reflexivity | lia | apply Prim2SF_valid
                        | now apply inUnit_upTo]).
  assert (B : upTo 6441948906990757 (-53)
                (SFmul prec emax (S754_finite false 6441948906990757 (-53))
                   (Prim2SF g)))
    by (apply upTo_mul; [reflexivity | reflexivity | lia | apply Prim2SF_valid
                        | now apply inUnit_upTo]).
  assert (C : upTo 5202558289538397 (-56)
                (SFmul prec emax (S754_finite false 5202558289538397 (-56))
                   (Prim2SF b)))
    by (apply upTo_mul; [reflexivity | reflexivity | lia | apply Prim2SF_valid
                        | now apply inUnit_upTo]).
  pose proof (Prim2SF_valid (0.2126 * r)%float) as VA.
  pose proof (Prim2SF_valid (0.7152 * g)%float) as VB.
  pose proof (Prim2SF_valid (0.0722 * b)%float) as VC.
  pose proof (Prim2SF_valid (0.2126 * r + 0.7152 * g)%float) as VAB.
  rewrite add_spec in VAB. rewrite mul_spec in VA, VB, VC, VAB.
  rewrite mul_spec in VAB.
  change (Prim2SF 0.2126) with (S754_finite false 7659722246231740 (-55)) in *.
  change (Prim2SF 0.7152) with (S754_finite false 6441948906990757 (-53)) in *.
  change (Prim2SF 0.0722) with (S754_finite false 5202558289538397 (-56)) in *.
  unfold SF64add, SF64mul in *.
  apply (upTo_add 8356879468548692 (-53) 5202558289538397 (-56));
    [reflexivity | lia | lia | lia | apply Z.leb_le; vm_compute; reflexivity
    | exact VAB | exact VC | | exact C].
  apply (upTo_add 7659722246231740 (-55) 6441948906990757 (-53));
    [reflexivity | lia | lia | lia | apply Z.leb_le; vm_compute; reflexivity
    | exact VA | exact VB | exact A | exact B].
Qed.

Lemma channels_checked :
  forallb channelCheck (map Z.of_nat (seq 0 256)) = true.
Proof. vm_compute. reflexivity. Qed.

Lemma channelCheck_range (z : Z) : (0 <= z <= 255)%Z -> channelCheck z = true.
Proof.
  intros H. apply (proj1 (forallb_forall _ _) channels_checked).
  rewrite <- (Z2Nat.id z) by lia. apply in_map, in_seq. lia.
Qed.

Section LuminanceFacts.
Local Open Scope float_scope.

Variable pow : float -> float -> float.
Hypothesis pow_inUnit : forall x, inUnit x = true -> inUnit (pow x 2.4) = true.
Hypothesis pow_one : pow 1 2.4 = 1.

Lemma linearize_inUnit (z : Z) :
  (0 <= z <= 255)%Z ->
  inUnit (toFloat (num z) / 255) = true
  /\ inUnit (linearize pow (toFloat (num z))) = true.
Proof.
  intros H. pose proof (channelCheck_range z H) as C.
  unfold channelCheck in C. cbv zeta in C.
  apply andb_prop in C. destruct C as [C1 C2]. split; [exact C1 |].
  unfold linearize. cbv zeta.
  destruct (toFloat (num z) / 255 <=? 0.03928); [exact C2 |].
  now apply pow_inUnit.
Qed.

(** C7: with [Math.pow] a function that takes a number between 0 and 1,
    raised to 2.4, to a number between 0 and 1, and 1 to 1: for every hex
    string [getLuminance] divides each parsed channel by 255, which gives a
    number between 0 and 1, linearizes it (divided by 12.92 when it is at
    most 0.03928, otherwise ((value + 0.055) / 1.055) raised to 2.4), and
    returns 0.2126 R + 0.7152 G + 0.0722 B of the linearized channels; the
    result lies between 0 and 1, and it is exactly 1 for "#ffffff" and
    exactly 0 for "#000000". *)
Theorem getLuminance_in_unit_interval (hex : string) :
  exists R G B : Z,
    hexToRgb hex = rgbOf R G B
    /\ inUnit (toFloat (num R) / 255) = true
    /\ inUnit (toFloat (num G) / 255) = true
    /\ inUnit (toFloat (num B) / 255) = true
    /\ (let lin := fun v : Z =>
                     if toFloat (num v) / 255 <=? 0.03928
                     then toFloat (num v) / 255 / 12.92
                     else pow ((toFloat (num v) / 255 + 0.055) / 1.055) 2.4 in
        getLuminance pow hex = 0.2126 * lin R + 0.7152 * lin G + 0.0722 * lin B)
    /\ (0 <=? getLuminance pow hex) = true
    /\ (getLuminance pow hex <=? 1) = true
    /\ getLuminance pow "#ffffff" = 1
    /\ getLuminance pow "#000000" = 0.
Proof.
  destruct (hexToRgb_channels hex) as (R & G & B & H & HR & HG & HB).
  exists R, G, B. split; [exact H |].
  destruct (linearize_inUnit R HR) as [NR LR].
  destruct (linearize_inUnit G HG) as [NG LG].
  destruct (linearize_inUnit B HB) as [NB LB].
  split; [exact NR |]. split; [exact NG |]. split; [exact NB |].
  assert (E : getLuminance pow hex
              = 0.2126 * linearize pow (toFloat (num R))
                + 0.7152 * linearize pow (toFloat (num G))
                + 0.0722 * linearize pow (toFloat (num B))).
  { unfold getLuminance. rewrite H. reflexivity. }
  split; [exact E |].
  pose proof (weighted_sum_inUnit _ _ _ LR LG LB) as U.
  rewrite <- E in U. unfold inUnit in U. apply andb_prop in U.
  split; [tauto |]. split; [tauto |]. split.
  - unfold getLuminance.
    change (hexToRgb "#ffffff") with (rgbOf 255 255 255).
    cbn [map r g b rgbOf].
    change (linearize pow (toFloat (num 255))) with (pow 1 2.4).
    rewrite pow_one. reflexivity.
  - reflexivity.
Qed.

End LuminanceFacts.

(** The luminance of "#FF5733", with the identity for [Math.pow]. *)
Lemma getLuminance_in_unit_interval_example :
  ((0 <=? getLuminance (fun x _ => x) "#FF5733")
   && (getLuminance (fun x _ => x) "#FF5733" <=? 1))%float = true.
Proof.
  destruct (getLuminance_in_unit_interval (fun x _ => x)
              (fun x H => H) eq_refl "#FF5733")
    as (R & G & B & _ & _ & _ & _ & _ & H0 & H1 & _).
  rewrite H0, H1. reflexivity.
Defined.

(** * What throws *)

Lemma JS_hexToRgb (s : string) : JS.hexToRgb s = Normal (hexToRgb s).
Proof.
  unfold JS.hexToRgb, hexToRgb. now destruct (exec hexToRgb_re s).
Qed.

Lemma JS_getContrastColor (s : string) :
  JS.getContrastColor s = Normal (getContrastColor s).
Proof. unfold JS.getContrastColor. now rewrite JS_hexToRgb. Qed.

Lemma JS_getLuminance (pow : float -> float -> float) (s : string) :
  JS.getLuminance pow s = Normal (getLuminance pow s).
Proof. unfold JS.getLuminance. now rewrite JS_hexToRgb. Qed.

Lemma JS_createColoredHex (s : string) (options : argument) :
  options <> ArgNull ->
  JS.createColoredHex s options = Normal (createColoredHex s (optionsOf options))
  /\ JS.createColoredHexHTML s options
     = Normal (createColoredHexHTML s (optionsOf options)).
Proof.
  intros Hn.
  unfold JS.createColoredHex, JS.createColoredHexHTML, createColoredHex,
    createColoredHexHTML, JS.isValidHex.
  cbn [JS.bind]. fold (isValidHex s).
  destruct (isValidHex s); cbn [negb]; [| split; reflexivity].
  destruct options as [| | | o]; try (now elim Hn);
    cbn [JS.defaultOptions JS.destructure JS.bind optionsOf];
    rewrite JS_getContrastColor; cbn [JS.bind];
    split; try reflexivity;
    match goal with
    | |- context [orDefault (showBorder ?o) true] =>
        destruct (orDefault (showBorder o) true); reflexivity
    end.
Qed.

Lemma argument_null_dec (options : argument) :
  options = ArgNull \/ options <> ArgNull.
Proof. destruct options; [right | left | right | right]; easy. Qed.

Lemma JS_null_options (s : string) :
  (isValidHex s = true ->
   JS.createColoredHex s ArgNull = Throw TypeError
   /\ JS.createColoredHexHTML s ArgNull = Throw TypeError)
  /\ (isValidHex s = false ->
      JS.createColoredHex s ArgNull = Normal (plainText s)
      /\ JS.createColoredHexHTML s ArgNull = Normal s).
Proof.
  unfold JS.createColoredHex, JS.createColoredHexHTML, JS.isValidHex.
  cbn [JS.bind]. fold (isValidHex s).
  split; intros ->; split; reflexivity.
Qed.



